(** * DeepCASE command-line driver ([deepcase/__main__.py])

    A shallow embedding of the driver script.  The script is a straight-line
    program that talks to external collaborators (the preprocessor, torch,
    the ContextBuilder, the Interpreter, the reporting function).  It is
    embedded as a program tree over the calls it makes; a world answers the
    calls, and a run is the list of calls with their answers together with
    the way the script ended. *)

From Stdlib Require Import ZArith List PrimFloat Uint63.
From stdpp Require Import base option gmap strings.

Import ListNotations.
Local Open Scope string_scope.
Local Open Scope Z_scope.

(** ** Python values that the script handles *)

(** A number read by [argparse]: [type=float] yields a float for a supplied
    option, while a non-string [default=] is stored as written. *)
Inductive pynum :=
  | PyInt (z : Z)
  | PyFloat (f : float).

(** Exceptions.  [ValueError], [NameError], [IndexError] and [SystemExit]
    are the ones the script itself can raise; [Failure] carries the failure
    modes named by the design of the collaborators; [OtherError] is any
    other exception coming out of a collaborator. *)
Inductive failure :=
  | InvalidConfig | EmptyInput | ShapeMismatch
  | UntrainedModel | EncoderRequired | EmptyEmbeddingSet.

Inductive exn :=
  | ValueError (msg : string)
  | NameError (name : string)
  | IndexError
  | SystemExit (code : option Z)
  | Failure (f : failure)
  | OtherError (name : string).

(** Entries of a tensor: event ids are integers, scores are floats. *)
Inductive scalar :=
  | SInt (z : Z)
  | SFloat (f : float).

Record tensor := Tensor {
  t_shape  : list nat;
  t_data   : list scalar;
  t_device : string;
}.

(** [t.shape[0]]: indexing the shape of a 0-dimensional tensor fails. *)
Definition shape0 (t : tensor) : exn + nat :=
  match t_shape t with
  | n :: _ => inr n
  | [] => inl IndexError
  end.

Definition numel (t : tensor) : nat := fold_right Nat.mul 1%nat (t_shape t).

(** [t.reshape(-1, 1)]: one column, as many rows as there are entries. *)
Definition reshape_col (t : tensor) : tensor :=
  Tensor [numel t; 1%nat] (t_data t) (t_device t).

(** [torch.zeros((n, 1), device=dev)] *)
Definition zeros_col (n : nat) (dev : string) : tensor :=
  Tensor [n; 1%nat] (repeat (SFloat 0%float) n) dev.

(** A Python integer as a float (exact for the small constants used here). *)
Definition float_of_Z (k : Z) : float :=
  match k with
  | Z0 => 0%float
  | Zpos _ => PrimFloat.of_uint63 (Uint63.of_Z k)
  | Zneg _ => PrimFloat.opp (PrimFloat.of_uint63 (Uint63.of_Z (- k)))
  end.

(** [t - k] for a Python integer [k]. *)
Definition scalar_sub (k : Z) (x : scalar) : scalar :=
  match x with
  | SInt z => SInt (z - k)
  | SFloat f => SFloat (PrimFloat.sub f (float_of_Z k))
  end.

Definition tensor_sub (t : tensor) (k : Z) : tensor :=
  Tensor (t_shape t) (map (scalar_sub k) (t_data t)) (t_device t).

(** Python's [0.1] and [0.2] are the binary64 values nearest to the decimal
    literals, as are the float literals below. *)
Set Warnings "-inexact-float".

(** ** The parsed command line (lines 18-72) *)

Inductive mode := Sequence | Train | Manual | Automatic.

(** The namespace returned by [parser.parse_args()]; one field per
    [add_argument], under the [dest] that argparse derives from the flag. *)
Record args := Args {
  args_mode             : mode;
  args_csv              : option string;
  args_txt              : option string;
  args_events           : string;
  args_length           : Z;
  args_timeout          : pynum;
  args_save_sequences   : option string;
  args_load_sequences   : option string;
  args_hidden           : Z;
  args_delta            : float;
  args_save_builder     : option string;
  args_load_builder     : option string;
  args_confidence       : float;
  args_epsilon          : float;
  args_min_samples      : Z;
  args_save_interpreter : option string;
  args_load_interpreter : option string;
  args_epochs           : Z;
  args_batch            : Z;
  args_device           : string;
}.

(** Attribute assignment [a.f = v], one setter per attribute. *)
Definition set_mode (v : mode) (a : args) : args :=
  Args v (args_csv a) (args_txt a) (args_events a) (args_length a)
    (args_timeout a) (args_save_sequences a) (args_load_sequences a)
    (args_hidden a) (args_delta a) (args_save_builder a)
    (args_load_builder a) (args_confidence a) (args_epsilon a)
    (args_min_samples a) (args_save_interpreter a) (args_load_interpreter a)
    (args_epochs a) (args_batch a) (args_device a).

Definition set_csv (v : option string) (a : args) : args :=
  Args (args_mode a) v (args_txt a) (args_events a) (args_length a)
    (args_timeout a) (args_save_sequences a) (args_load_sequences a)
    (args_hidden a) (args_delta a) (args_save_builder a)
    (args_load_builder a) (args_confidence a) (args_epsilon a)
    (args_min_samples a) (args_save_interpreter a) (args_load_interpreter a)
    (args_epochs a) (args_batch a) (args_device a).

Definition set_txt (v : option string) (a : args) : args :=
  Args (args_mode a) (args_csv a) v (args_events a) (args_length a)
    (args_timeout a) (args_save_sequences a) (args_load_sequences a)
    (args_hidden a) (args_delta a) (args_save_builder a)
    (args_load_builder a) (args_confidence a) (args_epsilon a)
    (args_min_samples a) (args_save_interpreter a) (args_load_interpreter a)
    (args_epochs a) (args_batch a) (args_device a).

Definition set_events (v : string) (a : args) : args :=
  Args (args_mode a) (args_csv a) (args_txt a) v (args_length a)
    (args_timeout a) (args_save_sequences a) (args_load_sequences a)
    (args_hidden a) (args_delta a) (args_save_builder a)
    (args_load_builder a) (args_confidence a) (args_epsilon a)
    (args_min_samples a) (args_save_interpreter a) (args_load_interpreter a)
    (args_epochs a) (args_batch a) (args_device a).

Definition set_length (v : Z) (a : args) : args :=
  Args (args_mode a) (args_csv a) (args_txt a) (args_events a) v
    (args_timeout a) (args_save_sequences a) (args_load_sequences a)
    (args_hidden a) (args_delta a) (args_save_builder a)
    (args_load_builder a) (args_confidence a) (args_epsilon a)
    (args_min_samples a) (args_save_interpreter a) (args_load_interpreter a)
    (args_epochs a) (args_batch a) (args_device a).

Definition set_timeout (v : pynum) (a : args) : args :=
  Args (args_mode a) (args_csv a) (args_txt a) (args_events a)
    (args_length a) v (args_save_sequences a) (args_load_sequences a)
    (args_hidden a) (args_delta a) (args_save_builder a)
    (args_load_builder a) (args_confidence a) (args_epsilon a)
    (args_min_samples a) (args_save_interpreter a) (args_load_interpreter a)
    (args_epochs a) (args_batch a) (args_device a).

Definition set_save_sequences (v : option string) (a : args) : args :=
  Args (args_mode a) (args_csv a) (args_txt a) (args_events a)
    (args_length a) (args_timeout a) v (args_load_sequences a)
    (args_hidden a) (args_delta a) (args_save_builder a)
    (args_load_builder a) (args_confidence a) (args_epsilon a)
    (args_min_samples a) (args_save_interpreter a) (args_load_interpreter a)
    (args_epochs a) (args_batch a) (args_device a).

Definition set_load_sequences (v : option string) (a : args) : args :=
  Args (args_mode a) (args_csv a) (args_txt a) (args_events a)
    (args_length a) (args_timeout a) (args_save_sequences a) v
    (args_hidden a) (args_delta a) (args_save_builder a)
    (args_load_builder a) (args_confidence a) (args_epsilon a)
    (args_min_samples a) (args_save_interpreter a) (args_load_interpreter a)
    (args_epochs a) (args_batch a) (args_device a).

Definition set_hidden (v : Z) (a : args) : args :=
  Args (args_mode a) (args_csv a) (args_txt a) (args_events a)
    (args_length a) (args_timeout a) (args_save_sequences a)
    (args_load_sequences a) v (args_delta a) (args_save_builder a)
    (args_load_builder a) (args_confidence a) (args_epsilon a)
    (args_min_samples a) (args_save_interpreter a) (args_load_interpreter a)
    (args_epochs a) (args_batch a) (args_device a).

Definition set_delta (v : float) (a : args) : args :=
  Args (args_mode a) (args_csv a) (args_txt a) (args_events a)
    (args_length a) (args_timeout a) (args_save_sequences a)
    (args_load_sequences a) (args_hidden a) v (args_save_builder a)
    (args_load_builder a) (args_confidence a) (args_epsilon a)
    (args_min_samples a) (args_save_interpreter a) (args_load_interpreter a)
    (args_epochs a) (args_batch a) (args_device a).

Definition set_save_builder (v : option string) (a : args) : args :=
  Args (args_mode a) (args_csv a) (args_txt a) (args_events a)
    (args_length a) (args_timeout a) (args_save_sequences a)
    (args_load_sequences a) (args_hidden a) (args_delta a) v
    (args_load_builder a) (args_confidence a) (args_epsilon a)
    (args_min_samples a) (args_save_interpreter a) (args_load_interpreter a)
    (args_epochs a) (args_batch a) (args_device a).

Definition set_load_builder (v : option string) (a : args) : args :=
  Args (args_mode a) (args_csv a) (args_txt a) (args_events a)
    (args_length a) (args_timeout a) (args_save_sequences a)
    (args_load_sequences a) (args_hidden a) (args_delta a)
    (args_save_builder a) v (args_confidence a) (args_epsilon a)
    (args_min_samples a) (args_save_interpreter a) (args_load_interpreter a)
    (args_epochs a) (args_batch a) (args_device a).

Definition set_confidence (v : float) (a : args) : args :=
  Args (args_mode a) (args_csv a) (args_txt a) (args_events a)
    (args_length a) (args_timeout a) (args_save_sequences a)
    (args_load_sequences a) (args_hidden a) (args_delta a)
    (args_save_builder a) (args_load_builder a) v (args_epsilon a)
    (args_min_samples a) (args_save_interpreter a) (args_load_interpreter a)
    (args_epochs a) (args_batch a) (args_device a).

Definition set_epsilon (v : float) (a : args) : args :=
  Args (args_mode a) (args_csv a) (args_txt a) (args_events a)
    (args_length a) (args_timeout a) (args_save_sequences a)
    (args_load_sequences a) (args_hidden a) (args_delta a)
    (args_save_builder a) (args_load_builder a) (args_confidence a) v
    (args_min_samples a) (args_save_interpreter a) (args_load_interpreter a)
    (args_epochs a) (args_batch a) (args_device a).

Definition set_min_samples (v : Z) (a : args) : args :=
  Args (args_mode a) (args_csv a) (args_txt a) (args_events a)
    (args_length a) (args_timeout a) (args_save_sequences a)
    (args_load_sequences a) (args_hidden a) (args_delta a)
    (args_save_builder a) (args_load_builder a) (args_confidence a)
    (args_epsilon a) v (args_save_interpreter a) (args_load_interpreter a)
    (args_epochs a) (args_batch a) (args_device a).

Definition set_save_interpreter (v : option string) (a : args) : args :=
  Args (args_mode a) (args_csv a) (args_txt a) (args_events a)
    (args_length a) (args_timeout a) (args_save_sequences a)
    (args_load_sequences a) (args_hidden a) (args_delta a)
    (args_save_builder a) (args_load_builder a) (args_confidence a)
    (args_epsilon a) (args_min_samples a) v (args_load_interpreter a)
    (args_epochs a) (args_batch a) (args_device a).

Definition set_load_interpreter (v : option string) (a : args) : args :=
  Args (args_mode a) (args_csv a) (args_txt a) (args_events a)
    (args_length a) (args_timeout a) (args_save_sequences a)
    (args_load_sequences a) (args_hidden a) (args_delta a)
    (args_save_builder a) (args_load_builder a) (args_confidence a)
    (args_epsilon a) (args_min_samples a) (args_save_interpreter a) v
    (args_epochs a) (args_batch a) (args_device a).

Definition set_epochs (v : Z) (a : args) : args :=
  Args (args_mode a) (args_csv a) (args_txt a) (args_events a)
    (args_length a) (args_timeout a) (args_save_sequences a)
    (args_load_sequences a) (args_hidden a) (args_delta a)
    (args_save_builder a) (args_load_builder a) (args_confidence a)
    (args_epsilon a) (args_min_samples a) (args_save_interpreter a)
    (args_load_interpreter a) v (args_batch a) (args_device a).

Definition set_batch (v : Z) (a : args) : args :=
  Args (args_mode a) (args_csv a) (args_txt a) (args_events a)
    (args_length a) (args_timeout a) (args_save_sequences a)
    (args_load_sequences a) (args_hidden a) (args_delta a)
    (args_save_builder a) (args_load_builder a) (args_confidence a)
    (args_epsilon a) (args_min_samples a) (args_save_interpreter a)
    (args_load_interpreter a) (args_epochs a) v (args_device a).

Definition set_device (v : string) (a : args) : args :=
  Args (args_mode a) (args_csv a) (args_txt a) (args_events a)
    (args_length a) (args_timeout a) (args_save_sequences a)
    (args_load_sequences a) (args_hidden a) (args_delta a)
    (args_save_builder a) (args_load_builder a) (args_confidence a)
    (args_epsilon a) (args_min_samples a) (args_save_interpreter a)
    (args_load_interpreter a) (args_epochs a) (args_batch a) v.

(** The [default=] of every [add_argument]; an option without one is
    [None].  The default of [--timeout] is the integer the source writes:
    argparse applies [type=] to a default only when it is a string. *)
Definition default_args (m : mode) : args := {|
  args_mode             := m;
  args_csv              := None;
  args_txt              := None;
  args_events           := "auto";
  args_length           := 10;
  args_timeout          := PyInt 86400;
  args_save_sequences   := None;
  args_load_sequences   := None;
  args_hidden           := 128;
  args_delta            := 0.1%float;
  args_save_builder     := None;
  args_load_builder     := None;
  args_confidence       := 0.2%float;
  args_epsilon          := 0.1%float;
  args_min_samples      := 5;
  args_save_interpreter := None;
  args_load_interpreter := None;
  args_epochs           := 10;
  args_batch            := 128;
  args_device           := "auto";
|}.

(** The [choices] of the positional [mode]. *)
Definition mode_of_string (s : string) : option mode :=
  if String.eqb s "sequence" then Some Sequence
  else if String.eqb s "train" then Some Train
  else if String.eqb s "manual" then Some Manual
  else if String.eqb s "automatic" then Some Automatic
  else None.

(** The options declared at lines 35-69. *)
Inductive option_name :=
  | Csv | Txt | Events
  | Length | Timeout | SaveSequences | LoadSequences
  | Hidden | Delta | SaveBuilder | LoadBuilder
  | Confidence | Epsilon | MinSamples | SaveInterpreter | LoadInterpreter
  | Epochs | Batch
  | Device.

(** The option string each one is declared under. *)
Definition option_string (o : option_name) : string :=
  match o with
  | Csv => "--csv" | Txt => "--txt" | Events => "--events"
  | Length => "--length" | Timeout => "--timeout"
  | SaveSequences => "--save-sequences" | LoadSequences => "--load-sequences"
  | Hidden => "--hidden" | Delta => "--delta"
  | SaveBuilder => "--save-builder" | LoadBuilder => "--load-builder"
  | Confidence => "--confidence" | Epsilon => "--epsilon"
  | MinSamples => "--min_samples"
  | SaveInterpreter => "--save-interpreter"
  | LoadInterpreter => "--load-interpreter"
  | Epochs => "--epochs" | Batch => "--batch"
  | Device => "--device"
  end.

(** What [parse_args] acts on.  argparse reads the argument strings, finds
    for each the declared argument it stands for, and performs that
    argument's action, from left to right.  Finding the argument is
    argparse's own work and is not part of the script, so a command line
    is given here as what argparse makes of its strings, in their order:
    - [Positional s]: a string that is not an option;
    - [Given o v]: the option [o] with its value [v], whether the option
      is written in full, abbreviated to a prefix that no other option
      shares ([--cs events.csv]) or joined to its value
      ([--csv=events.csv]);
    - [Help]: [-h], [--help] or an abbreviation of it, which every
      [ArgumentParser] has;
    - [Ambiguous]: an abbreviation that several options share ([--e]);
    - [Unusable]: an option that cannot be used as written, because its
      value is missing or looks like an option ([--csv -x]), or because
      [-h] is given a value;
    - [Unrecognized]: an option that is not declared ([--foo]). *)
Inductive argument :=
  | Positional (s : string)
  | Given (o : option_name) (v : string)
  | Help
  | Ambiguous
  | Unusable
  | Unrecognized.

(** Truth value of an optional string: [None] and [''] are false. *)
Definition truthy (o : option string) : bool :=
  match o with
  | Some s => negb (String.eqb s "")
  | None => false
  end.

Definition is_not_none {A} (o : option A) : bool :=
  match o with Some _ => true | None => false end.

(** [if o: f(o) else: els] for an optional string [o]. *)
Definition if_given {A} (o : option string) (f : string -> A) (els : A) : A :=
  match o with
  | Some p => if String.eqb p "" then els else f p
  | None => els
  end.

Section Parser.

(** The conversions [int] and [float] of Python, applied by argparse to
    the value of an option declared with [type=int] or [type=float]. *)
Variable py_int   : string -> exn + Z.
Variable py_float : string -> exn + float.

(** An argparse error ends the program with exit status 2. *)
Definition parser_error {A} : exn + A := inl (SystemExit (Some 2)).

Definition with_int (v : string) (set : Z -> args) : exn + args :=
  match py_int v with
  | inr z => inr (set z)
  | inl _ => parser_error
  end.

Definition with_float (v : string) (set : float -> args) : exn + args :=
  match py_float v with
  | inr f => inr (set f)
  | inl _ => parser_error
  end.

(** Storing one supplied option (the [store] action), after the
    conversion its [type=] asks for. *)
Definition store (a : args) (o : option_name) (v : string) : exn + args :=
  match o with
  | Csv => inr (set_csv (Some v) a)
  | Txt => inr (set_txt (Some v) a)
  | Events => inr (set_events v a)
  | Length => with_int v (fun z => set_length z a)
  | Timeout => with_float v (fun f => set_timeout (PyFloat f) a)
  | SaveSequences => inr (set_save_sequences (Some v) a)
  | LoadSequences => inr (set_load_sequences (Some v) a)
  | Hidden => with_int v (fun z => set_hidden z a)
  | Delta => with_float v (fun f => set_delta f a)
  | SaveBuilder => inr (set_save_builder (Some v) a)
  | LoadBuilder => inr (set_load_builder (Some v) a)
  | Confidence => with_float v (fun f => set_confidence f a)
  | Epsilon => with_float v (fun f => set_epsilon f a)
  | MinSamples => with_int v (fun z => set_min_samples z a)
  | SaveInterpreter => inr (set_save_interpreter (Some v) a)
  | LoadInterpreter => inr (set_load_interpreter (Some v) a)
  | Epochs => with_int v (fun z => set_epochs z a)
  | Batch => with_int v (fun z => set_batch z a)
  | Device => inr (set_device v a)
  end.

(** The actions in order.  [m] is the mode once the positional has been
    read (until the end [args_mode a] is not looked at), and [surplus]
    records that something was left over: an option that is not
    declared, or a second positional.  The help action prints and exits
    with status 0.  A usage error exits with status 2: at its place for
    an unusable option, a value its type rejects and a mode outside the
    choices; at the end for a missing mode and for what was left over. *)
Fixpoint store_all (m : option mode) (surplus : bool) (a : args)
    (cl : list argument) : exn + args :=
  match cl with
  | [] =>
      match m with
      | Some m => if surplus then parser_error else inr (set_mode m a)
      | None => parser_error
      end
  | Help :: _ => inl (SystemExit (Some 0))
  | Ambiguous :: _ | Unusable :: _ => parser_error
  | Unrecognized :: rest => store_all m true a rest
  | Positional s :: rest =>
      match m with
      | Some _ => store_all m true a rest
      | None =>
          match mode_of_string s with
          | Some m' => store_all (Some m') surplus a rest
          | None => parser_error
          end
      end
  | Given o v :: rest =>
      match store a o v with
      | inr a' => store_all m surplus a' rest
      | inl e => inl e
      end
  end.

Definition is_ambiguous (x : argument) : bool :=
  match x with
  | Ambiguous => true
  | _ => false
  end.

(** Line 72.  An ambiguous abbreviation is reported while the strings are
    sorted into options and values, before any action. *)
Definition parse_args (cl : list argument) : exn + args :=
  if existsb is_ambiguous cl then parser_error
  else store_all None false (default_args Sequence) cl.

End Parser.

(** ** The collaborators and the calls of the script *)

(** [Preprocessor(length=..., timeout=...)] keeps its two settings; the
    work, and its failures, are in [csv] and [txt]. *)
Record preprocessor := Preprocessor {
  p_length  : Z;
  p_timeout : pynum;
}.

(** The four names bound together at lines 90, 93 and 111-114. *)
Record sequences := Sequences {
  s_events  : tensor;
  s_context : tensor;
  s_label   : option tensor;
  s_mapping : gmap Z string;
}.

Section Driver.

(** Objects owned by the collaborators: a ContextBuilder, an Interpreter,
    an open file.  The script only passes them around. *)
Context {builder interpreter file : Type}.

(** The class attribute [Preprocessor.NO_EVENT] and Python's [int]. *)
Variable NO_EVENT : Z.
Variable py_int : string -> exn + Z.

(** Every call that leaves the script, with its arguments as written. *)
Inductive call :=
  | Preprocessor_csv (p : preprocessor) (path : string)
  | Preprocessor_txt (p : preprocessor) (path : string)
  | open_file (path fmode : string)
  | close_file (f : file)
  | torch_save (d : sequences) (f : file)
  | torch_load (f : file)
  | show_sequences (context events : tensor) (label : option tensor)
      (mapping : gmap Z string) (no_event : Z)
  | cuda_is_available
  | tensor_to (t : tensor) (device : string)
  | ContextBuilder_init (input_size output_size hidden_size num_layers
      max_length : Z) (bidirectional lstm : bool)
  | ContextBuilder_to (cb : builder) (device : string)
  | ContextBuilder_fit (cb : builder) (X y : tensor) (epochs batch_size : Z)
      (learning_rate teach_ratio : float) (verbose : bool)
  | ContextBuilder_save (cb : builder) (path : string)
  | ContextBuilder_load (path device : string)
  | Interpreter_init (cb : builder) (features : Z) (eps : float)
      (min_samples : Z) (threshold : float)
  | Interpreter_fit (i : interpreter) (X y score : tensor)
      (iterations batch_size : Z) (verbose : bool)
  | Interpreter_save (i : interpreter) (path : string)
  | Interpreter_load (path : string) (cb : builder)
  | print (msg : string).

(** What a call returns when it returns. *)
Definition ret_type (c : call) : Type :=
  match c with
  | Preprocessor_csv _ _ | Preprocessor_txt _ _ | torch_load _ => sequences
  | open_file _ _ => file
  | cuda_is_available => bool
  | tensor_to _ _ => tensor
  | ContextBuilder_init _ _ _ _ _ _ _ | ContextBuilder_to _ _
  | ContextBuilder_load _ _ => builder
  | Interpreter_init _ _ _ _ _ | Interpreter_load _ _ => interpreter
  | close_file _ | torch_save _ _ | show_sequences _ _ _ _ _
  | ContextBuilder_fit _ _ _ _ _ _ _ _ | ContextBuilder_save _ _
  | Interpreter_fit _ _ _ _ _ _ _ | Interpreter_save _ _ | print _ => unit
  end.

(** *** Programs *)

(** A program returns, raises, or makes a call and goes on with the
    answer: the value returned or the exception raised by the callee. *)
Inductive prog (R : Type) :=
  | Ret (r : R)
  | Raise (e : exn)
  | Vis (c : call) (k : exn + ret_type c -> prog R).
Arguments Ret {R} r.
Arguments Raise {R} e.
Arguments Vis {R} c k.

Fixpoint bind {A R} (p : prog A) (f : A -> prog R) : prog R :=
  match p with
  | Ret r => f r
  | Raise e => Raise e
  | Vis c k => Vis c (fun a => bind (k a) f)
  end.

(** A call whose exception is not caught. *)
Definition do (c : call) : prog (ret_type c) :=
  Vis c (fun a => match a with inl e => Raise e | inr x => Ret x end).

(** [try: p finally: fin] *)
Fixpoint finally {R} (p : prog R) (fin : prog unit) : prog R :=
  match p with
  | Ret r => bind fin (fun _ => Ret r)
  | Raise e => bind fin (fun _ => Raise e)
  | Vis c k => Vis c (fun a => finally (k a) fin)
  end.

(** [with open(path, mode) as f: body] *)
Definition with_open {R} (path fmode : string) (body : file -> prog R) : prog R :=
  bind (do (open_file path fmode))
       (fun f => finally (body f) (do (close_file f))).

(** Reading a name that may not have been bound. *)
Definition name {A} (x : string) (v : option A) : prog A :=
  match v with
  | Some d => Ret d
  | None => Raise (NameError x)
  end.

Definition lift {A} (r : exn + A) : prog A :=
  match r with
  | inr x => Ret x
  | inl e => Raise e
  end.


Declare Scope prog_scope.
Delimit Scope prog_scope with prog.
Notation "x <- p ;; q" := (bind p (fun x => q))
  (at level 100, p at next level, q at level 200, right associativity)
  : prog_scope.
Notation "p ;; q" := (bind p (fun _ => q))
  (at level 100, q at level 200, right associativity) : prog_scope.
Local Open Scope prog_scope.

(** *** A. Security event sequences (lines 78-120) *)

(** Lines 84-93.  [None] stands for the four names being unbound. *)
Definition load_files (a : args) (pre : preprocessor) : prog (option sequences) :=
  if is_not_none (args_csv a) && is_not_none (args_txt a) then
    Raise (ValueError "Please specify EITHER --csv OR --txt.")
  else
    if_given (A := prog (option sequences)) (args_csv a)
      (fun path => d <- do (Preprocessor_csv pre path) ;; Ret (Some d))
      (if_given (A := prog (option sequences)) (args_txt a)
        (fun path => d <- do (Preprocessor_txt pre path) ;; Ret (Some d))
        (Ret None)).

(** Lines 95-103.  The file is opened before the dictionary is built. *)
Definition save_sequences (a : args) (v : option sequences) : prog unit :=
  if_given (A := prog unit) (args_save_sequences a)
    (fun path =>
       with_open (R := unit) path "wb" (fun outfile =>
         d <- name "events" v ;;
         do (torch_save d outfile)))
    (Ret tt).

(** Lines 105-114. *)
Definition load_sequences (a : args) (v : option sequences) : prog (option sequences) :=
  if_given (A := prog (option sequences)) (args_load_sequences a)
    (fun path =>
       with_open (R := option sequences) path "rb" (fun infile =>
         data <- do (torch_load infile) ;;
         Ret (Some data)))
    (Ret v).

Definition sequences_section (a : args) (pre : preprocessor) : prog (option sequences) :=
  v <- load_files a pre ;;
  save_sequences a v ;;
  load_sequences a v.

(** Lines 116-120: [exit()] raises [SystemExit]. *)
Definition sequence_mode {R} (v : option sequences) : prog R :=
  d <- name "context" v ;;
  do (show_sequences (s_context d) (s_events d) (s_label d) (s_mapping d)
        NO_EVENT) ;;
  Raise (SystemExit None).

(** *** Set "auto" arguments (lines 126-138) *)

(** Lines 126-128. *)
Definition auto_device (a : args) : prog string :=
  if String.eqb (args_device a) "auto" then
    cuda <- do cuda_is_available ;;
    Ret (if cuda : bool then "cuda" else "cpu")
  else Ret (args_device a).

(** Lines 130-134: [len(mapping)], or [int(args.events)]. *)
Definition auto_events (a : args) (v : option sequences) : prog Z :=
  if String.eqb (args_events a) "auto" then
    d <- name "mapping" v ;;
    Ret (Z.of_nat (size (s_mapping d)))
  else lift (py_int (args_events a)).

(** Lines 136-138. *)
Definition cast_tensors (device : string) (v : option sequences) : prog (tensor * tensor) :=
  d <- name "events" v ;;
  events <- do (tensor_to (s_events d) device) ;;
  context <- do (tensor_to (s_context d) device) ;;
  Ret ((events, context) : tensor * tensor).

(** *** B. Context Builder (lines 144-175) *)

Definition new_context_builder (a : args) (n_events : Z) (device : string) : prog builder :=
  cb <- do (ContextBuilder_init n_events n_events (args_hidden a) 1
              (args_length a) false false) ;;
  do (ContextBuilder_to cb device).

Definition train_context_builder (a : args) (cb : builder)
    (events context : tensor) : prog unit :=
  match args_mode a with
  | Train =>
      do (ContextBuilder_fit cb context (reshape_col events) (args_epochs a)
            (args_batch a) 0.01%float 0.5%float true)
  | _ => Ret tt
  end.

Definition save_builder (a : args) (cb : builder) : prog unit :=
  if_given (A := prog unit) (args_save_builder a)
    (fun path => do (ContextBuilder_save cb path))
    (Ret tt).

Definition load_builder (a : args) (device : string) (cb : builder) : prog builder :=
  if_given (A := prog builder) (args_load_builder a)
    (fun path => do (ContextBuilder_load path device))
    (Ret cb).

Definition context_builder_section (a : args) (n_events : Z) (device : string)
    (events context : tensor) : prog builder :=
  cb <- new_context_builder a n_events device ;;
  train_context_builder a cb events context ;;
  save_builder a cb ;;
  load_builder a device cb.

(** *** C. Interpreter (lines 181-212) *)

Definition new_interpreter (a : args) (n_events : Z) (cb : builder) : prog interpreter :=
  do (Interpreter_init cb n_events (args_epsilon a) (args_min_samples a)
        (args_confidence a)).

(** Line 197: [torch.zeros((events.shape[0], 1), device=args.device) - 4] *)
Definition initial_score (events : tensor) (device : string) : exn + tensor :=
  match shape0 events with
  | inr n => inr (tensor_sub (zeros_col n device) 4)
  | inl e => inl e
  end.

Definition fit_interpreter (a : args) (i : interpreter) (device : string)
    (events context : tensor) : prog unit :=
  match args_mode a with
  | Train =>
      score <- lift (initial_score events device) ;;
      do (Interpreter_fit i context (reshape_col events) score 100 1024 true)
  | _ => Ret tt
  end.

Definition save_interpreter (a : args) (i : interpreter) : prog unit :=
  if_given (A := prog unit) (args_save_interpreter a)
    (fun path => do (Interpreter_save i path))
    (Ret tt).

Definition load_interpreter (a : args) (cb : builder) (i : interpreter) : prog interpreter :=
  if_given (A := prog interpreter) (args_load_interpreter a)
    (fun path => do (Interpreter_load path cb))
    (Ret i).

Definition interpreter_section (a : args) (n_events : Z) (device : string)
    (events context : tensor) (cb : builder) : prog interpreter :=
  i <- new_interpreter a n_events cb ;;
  fit_interpreter a i device events context ;;
  save_interpreter a i ;;
  load_interpreter a cb i.

(** *** D. Manual analysis (lines 218-221): [pass] *)
Definition manual_analysis (a : args) : prog unit :=
  match args_mode a with
  | Manual => Ret tt
  | _ => Ret tt
  end.

(** *** E. Semi-automatic analysis (lines 227-228) *)
Definition automatic_analysis (a : args) : prog unit :=
  match args_mode a with
  | Automatic => do (print "SEMI-AUTOMATIC mode")
  | _ => Ret tt
  end.

(** *** The script *)

(** The names [context_builder] and [interpreter] when the script ends. *)
Record final := Final {
  context_builder : builder;
  the_interpreter : interpreter;
}.

(** Everything after the sequence-mode exit (lines 122-228). *)
Definition model_sections (a : args) (v : option sequences) : prog final :=
  device <- auto_device a ;;
  n_events <- auto_events a v ;;
  cast <- cast_tensors device v ;;
  let events := fst cast in
  let context := snd cast in
  cb <- context_builder_section a n_events device events context ;;
  i <- interpreter_section a n_events device events context cb ;;
  manual_analysis a ;;
  automatic_analysis a ;;
  Ret (Final cb i).

Definition main (a : args) : prog final :=
  let pre := Preprocessor (args_length a) (args_timeout a) in
  v <- sequences_section a pre ;;
  match args_mode a with
  | Sequence => sequence_mode v
  | _ => model_sections a v
  end.

(** *** Runs *)

(** The value a call returned, as recorded in the trace. *)
Inductive value :=
  | VNone
  | VBool (b : bool)
  | VSequences (d : sequences)
  | VFile (f : file)
  | VTensor (t : tensor)
  | VBuilder (cb : builder)
  | VInterpreter (i : interpreter).

Definition to_value (c : call) : ret_type c -> value :=
  match c with
  | Preprocessor_csv _ _ | Preprocessor_txt _ _ | torch_load _ => VSequences
  | open_file _ _ => VFile
  | cuda_is_available => VBool
  | tensor_to _ _ => VTensor
  | ContextBuilder_init _ _ _ _ _ _ _ | ContextBuilder_to _ _
  | ContextBuilder_load _ _ => VBuilder
  | Interpreter_init _ _ _ _ _ | Interpreter_load _ _ => VInterpreter
  | close_file _ | torch_save _ _ | show_sequences _ _ _ _ _
  | ContextBuilder_fit _ _ _ _ _ _ _ _ | ContextBuilder_save _ _
  | Interpreter_fit _ _ _ _ _ _ _ | Interpreter_save _ _ | print _ =>
      fun _ => VNone
  end.

(** One entry of a trace: the call and how it ended. *)
Record event := Event {
  ev_call   : call;
  ev_answer : exn + value;
}.

Definition log (c : call) (a : exn + ret_type c) : event :=
  Event c (match a with inl e => inl e | inr x => inr (to_value c x) end).

(** A world answers every call from its current state. *)
Record world := World {
  wstate : Type;
  handle : forall c : call, wstate -> (exn + ret_type c) * wstate;
}.

(** A run: the calls made in order, the result or the uncaught exception,
    and the world that is left. *)
Record run (R W : Type) := Run {
  trace       : list event;
  outcome     : exn + R;
  final_world : W;
}.
Arguments Run {R W} _ _ _.
Arguments trace {R W} _.
Arguments outcome {R W} _.
Arguments final_world {R W} _.

Fixpoint exec (w : world) {R} (p : prog R) (s : wstate w) : run R (wstate w) :=
  match p with
  | Ret r => Run [] (inr r) s
  | Raise e => Run [] (inl e) s
  | Vis c k =>
      let ans := handle w c s in
      let r := exec w (k (fst ans)) (snd ans) in
      Run (log c (fst ans) :: trace r) (outcome r) (final_world r)
  end.

(** [all_runs p P]: [P] holds of the trace and outcome of [p] whatever the
    callees answer. *)
Fixpoint all_runs {R} (p : prog R) (P : list event -> exn + R -> Prop) : Prop :=
  match p with
  | Ret r => P [] (inr r)
  | Raise e => P [] (inl e)
  | Vis c k => forall a, all_runs (k a) (fun tr o => P (log c a :: tr) o)
  end.

End Driver.

Arguments Ret {builder interpreter file R} r.
Arguments Raise {builder interpreter file R} e.
Arguments Vis {builder interpreter file R} c k.
Arguments Run {builder interpreter file R W} _ _ _.
Arguments trace {builder interpreter file R W} _.
Arguments outcome {builder interpreter file R W} _.
Arguments final_world {builder interpreter file R W} _.
Arguments call : clear implicits.
Arguments prog : clear implicits.
Arguments event : clear implicits.
Arguments value : clear implicits.
Arguments world : clear implicits.
Arguments final : clear implicits.

Declare Scope prog_scope.
Delimit Scope prog_scope with prog.
Notation "x <- p ;; q" := (bind p (fun x => q))
  (at level 100, p at next level, q at level 200, right associativity)
  : prog_scope.
Notation "p ;; q" := (bind p (fun _ => q))
  (at level 100, q at level 200, right associativity) : prog_scope.

(** ** A world that follows the design of the collaborators

    The classes [ContextBuilder] and [Interpreter], the preprocessor and
    the persistence layer are not part of [__main__.py].  The world below
    answers the calls of the script the way their design describes them;
    objects live in a store and are passed by reference. *)

Module SpecWorld.

(** Modelled from the spec: the taxonomy of section 7, which files the
    named failure modes of sections 4.1-4.3 under ConfigurationError,
    DataError and ModelStateError ("operations requiring a fitted/loaded
    encoder or interpreter invoked before that state exists"). *)
Inductive category := ConfigurationError | DataError | ModelStateError.

Definition category_of (f : failure) : category :=
  match f with
  | InvalidConfig => ConfigurationError
  | EmptyInput | ShapeMismatch | EmptyEmbeddingSet => DataError
  | UntrainedModel | EncoderRequired => ModelStateError
  end.

(** Modelled from the spec: the state of a ContextEncoder that matters to
    its callers (section 4.2): the window length it was built for, and
    whether a fit or a load has happened ("UntrainedModel if embed/predict
    is invoked before any fit or load"). *)
Record encoder := Encoder {
  enc_input_size : Z;
  enc_max_length : Z;
  enc_device     : string;
  enc_ready      : bool;
}.

(** Modelled from the spec: the state of an Interpreter (section 4.3): the
    encoder it refers to, its clustering parameters and threshold, and
    whether it has been fitted or loaded. *)
Record interp := Interp {
  int_encoder     : nat;
  int_features    : Z;
  int_eps         : float;
  int_min_samples : Z;
  int_threshold   : float;
  int_ready       : bool;
}.

Record file_obj := FileObj {
  f_path : string;
  f_mode : string;
}.

(** What a storage path holds. *)
Inductive stored :=
  | Empty
  | StoredSequences (d : sequences)
  | StoredEncoder (e : encoder)
  | StoredInterp (i : interp).

Record state := State {
  encoders  : gmap nat encoder;
  interps   : gmap nat interp;
  next_ref  : nat;
  files     : gmap string stored;
  cuda      : bool;
  stdout    : list string;
}.

Definition set_encoders (m : gmap nat encoder) (s : state) : state :=
  State m (interps s) (next_ref s) (files s) (cuda s) (stdout s).
Definition set_interps (m : gmap nat interp) (s : state) : state :=
  State (encoders s) m (next_ref s) (files s) (cuda s) (stdout s).
Definition set_files (m : gmap string stored) (s : state) : state :=
  State (encoders s) (interps s) (next_ref s) m (cuda s) (stdout s).
Definition bump (s : state) : state :=
  State (encoders s) (interps s) (S (next_ref s)) (files s) (cuda s) (stdout s).
Definition write_stdout (msg : string) (s : state) : state :=
  State (encoders s) (interps s) (next_ref s) (files s) (cuda s)
    (stdout s ++ [msg])%list.

Definition new_encoder (e : encoder) (s : state) : (exn + nat) * state :=
  (inr (next_ref s), bump (set_encoders (<[next_ref s := e]> (encoders s)) s)).

Definition new_interp (i : interp) (s : state) : (exn + nat) * state :=
  (inr (next_ref s), bump (set_interps (<[next_ref s := i]> (interps s)) s)).

Definition fail {A} (e : exn) (s : state) : (exn + A) * state := (inl e, s).

(** Modelled from the spec: [Interpreter(context_builder=cb, ...)]
    (section 4.3): "fails with EncoderRequired if constructed without a
    fitted ContextEncoder reference". *)
Definition Interpreter_new (cb : nat) (features : Z) (eps : float)
    (min_samples : Z) (threshold : float) (s : state) : (exn + nat) * state :=
  match encoders s !! cb with
  | Some e =>
      if enc_ready e then
        new_interp (Interp cb features eps min_samples threshold false) s
      else fail (Failure EncoderRequired) s
  | None => fail (Failure EncoderRequired) s
  end.

(** Modelled from the spec: [ContextBuilder.fit] (section 4.2): "fails
    with ShapeMismatch if context windows are not all of length LENGTH";
    afterwards the encoder is fitted. *)
Definition ContextBuilder_fitted (cb : nat) (X : tensor) (s : state)
    : (exn + unit) * state :=
  match encoders s !! cb with
  | Some e =>
      match t_shape X with
      | [_; l] =>
          if Z.of_nat l =? enc_max_length e then
            (inr tt,
             set_encoders
               (<[cb := Encoder (enc_input_size e) (enc_max_length e)
                          (enc_device e) true]> (encoders s)) s)
          else fail (Failure ShapeMismatch) s
      | _ => fail (Failure ShapeMismatch) s
      end
  | None => fail (OtherError "AttributeError") s
  end.

(** Modelled from the spec: [Interpreter.fit] (section 4.3): "fails with
    EmptyEmbeddingSet if fit is called with zero embeddings". *)
Definition Interpreter_fitted (i : nat) (X : tensor) (s : state)
    : (exn + unit) * state :=
  match interps s !! i with
  | Some o =>
      match shape0 X with
      | inr O | inl _ => fail (Failure EmptyEmbeddingSet) s
      | inr (S _) =>
          (inr tt,
           set_interps
             (<[i := Interp (int_encoder o) (int_features o) (int_eps o)
                       (int_min_samples o) (int_threshold o) true]>
                (interps s)) s)
      end
  | None => fail (OtherError "AttributeError") s
  end.

(** Modelled from the spec: the persistence boundary (section 6): what is
    saved under a path is what a later load of that path returns; a
    loaded encoder or interpreter is ready for use. *)
Definition open_path (path fmode : string) (s : state) : (exn + file_obj) * state :=
  if String.eqb fmode "wb" then
    (inr (FileObj path fmode), set_files (<[path := Empty]> (files s)) s)
  else
    match files s !! path with
    | Some _ => (inr (FileObj path fmode), s)
    | None => fail (OtherError "FileNotFoundError") s
    end.

Definition save_to (path : string) (x : stored) (s : state) : (exn + unit) * state :=
  (inr tt, set_files (<[path := x]> (files s)) s).

Definition load_sequences_from (f : file_obj) (s : state) : (exn + sequences) * state :=
  match files s !! f_path f with
  | Some (StoredSequences d) => (inr d, s)
  | _ => fail (OtherError "UnpicklingError") s
  end.

Definition save_encoder (cb : nat) (path : string) (s : state) : (exn + unit) * state :=
  match encoders s !! cb with
  | Some e => save_to path (StoredEncoder e) s
  | None => fail (OtherError "AttributeError") s
  end.

Definition load_encoder (path device : string) (s : state) : (exn + nat) * state :=
  match files s !! path with
  | Some (StoredEncoder e) =>
      new_encoder (Encoder (enc_input_size e) (enc_max_length e) device true) s
  | Some _ => fail (OtherError "UnpicklingError") s
  | None => fail (OtherError "FileNotFoundError") s
  end.

Definition save_interp (i : nat) (path : string) (s : state) : (exn + unit) * state :=
  match interps s !! i with
  | Some o => save_to path (StoredInterp o) s
  | None => fail (OtherError "AttributeError") s
  end.

Definition load_interp (path : string) (cb : nat) (s : state) : (exn + nat) * state :=
  match files s !! path with
  | Some (StoredInterp o) =>
      new_interp (Interp cb (int_features o) (int_eps o) (int_min_samples o)
                    (int_threshold o) true) s
  | Some _ => fail (OtherError "UnpicklingError") s
  | None => fail (OtherError "FileNotFoundError") s
  end.

(** Moving data to a device that is not there fails. *)
Definition device_ok (device : string) (s : state) : bool :=
  String.eqb device "cpu" || cuda s.

Definition move_tensor (t : tensor) (device : string) (s : state)
    : (exn + tensor) * state :=
  if device_ok device s then (inr (Tensor (t_shape t) (t_data t) device), s)
  else fail (OtherError "RuntimeError") s.

Definition move_encoder (cb : nat) (device : string) (s : state)
    : (exn + nat) * state :=
  match encoders s !! cb with
  | Some e =>
      if device_ok device s then
        (inr cb,
         set_encoders
           (<[cb := Encoder (enc_input_size e) (enc_max_length e) device
                      (enc_ready e)]> (encoders s)) s)
      else fail (OtherError "RuntimeError") s
  | None => fail (OtherError "AttributeError") s
  end.

Section World.

(** The preprocessor is an opaque producer (section 6): what it reads
    from a csv ([true]) or txt ([false]) file is left open. *)
Variable read_events : bool -> preprocessor -> string -> exn + sequences.

Definition answer (c : call nat nat file_obj) : state -> (exn + ret_type c) * state :=
  match c with
  | Preprocessor_csv p path => fun s => (read_events true p path, s)
  | Preprocessor_txt p path => fun s => (read_events false p path, s)
  | open_file path fmode => open_path path fmode
  | close_file _ => fun s => (inr tt, s)
  | torch_save d f => save_to (f_path f) (StoredSequences d)
  | torch_load f => load_sequences_from f
  | show_sequences _ _ _ _ _ => fun s => (inr tt, s)
  | cuda_is_available => fun s => (inr (cuda s), s)
  | tensor_to t device => move_tensor t device
  | ContextBuilder_init input_size _ _ _ max_length _ _ =>
      new_encoder (Encoder input_size max_length "cpu" false)
  | ContextBuilder_to cb device => move_encoder cb device
  | ContextBuilder_fit cb X _ _ _ _ _ _ => ContextBuilder_fitted cb X
  | ContextBuilder_save cb path => save_encoder cb path
  | ContextBuilder_load path device => load_encoder path device
  | Interpreter_init cb features eps min_samples threshold =>
      Interpreter_new cb features eps min_samples threshold
  | Interpreter_fit i X _ _ _ _ _ => Interpreter_fitted i X
  | Interpreter_save i path => save_interp i path
  | Interpreter_load path cb => load_interp path cb
  | print msg => fun s => (inr tt, write_stdout msg s)
  end.

Definition spec_world : world nat nat file_obj :=
  {| wstate := state; handle := answer |}.

End World.

End SpecWorld.

(** ** Concrete runs *)

(** A small input on which the script and the world above can be run: three
    events of two types, windows of length 2 padded with 2 standing for "no
    event", and the saved state of an earlier training. *)
Module Demo.

Import SpecWorld.

Definition no_event : Z := -1337.

(** [int] on a string of decimal digits, which is all the examples use. *)
Fixpoint digits (s : string) (acc : Z) : option Z :=
  match s with
  | EmptyString => Some acc
  | String c rest =>
      let n := Z.of_nat (Ascii.nat_of_ascii c) in
      if (48 <=? n) && (n <=? 57) then digits rest (10 * acc + (n - 48))
      else None
  end.

Definition decimal_int (s : string) : exn + Z :=
  match s with
  | EmptyString => inl (ValueError "invalid literal for int() with base 10")
  | _ =>
      match digits s 0 with
      | Some z => inr z
      | None => inl (ValueError "invalid literal for int() with base 10")
      end
  end.

(** [float] on the one literal the examples use. *)
Definition half_float (s : string) : exn + float :=
  if String.eqb s "0.5" then inr 0.5%float
  else inl (ValueError "could not convert string to float").

Definition events : tensor :=
  Tensor [3%nat] [SInt 0; SInt 1; SInt 0] "cpu".

Definition context : tensor :=
  Tensor [3%nat; 2%nat] [SInt 2; SInt 2; SInt 2; SInt 0; SInt 0; SInt 1] "cpu".

Definition mapping : gmap Z string := <[0 := "login"]> (<[1 := "scan"]> ∅).

Definition data : sequences := Sequences events context None mapping.

Definition read_events (csv : bool) (p : preprocessor) (path : string)
    : exn + sequences := inr data.

Definition world : world nat nat file_obj := spec_world read_events.

(** Nothing stored, no accelerator. *)
Definition fresh : state := State ∅ ∅ 0 ∅ false [].

(** The files an earlier training run left behind. *)
Definition trained : state :=
  State ∅ ∅ 0
    (<["builder.save" := StoredEncoder (Encoder 2 2 "cpu" true)]>
       (<["interpreter.save" :=
            StoredInterp (Interp 0 2 0.1%float 5 0.2%float true)]>
          (<["sequences.save" := StoredSequences data]> ∅)))
    false [].

Definition on_events (m : mode) : args :=
  set_csv (Some "events.csv") (set_length 2 (default_args m)).

(** [deepcase.py automatic --csv events.csv --length 2
     --load-builder builder.save --load-interpreter interpreter.save] *)
Definition automatic_args : args :=
  set_load_interpreter (Some "interpreter.save")
    (set_load_builder (Some "builder.save") (on_events Automatic)).


Definition both_inputs : args := set_txt (Some "events.txt") (on_events Train).

Definition run_of (a : args) (s : state) : run (final nat nat) state :=
  exec world (main no_event decimal_int a) s.

End Demo.

(** ** Reading a trace *)

Section Traces.

Context {builder interpreter file : Type}.
#[local] Abbreviation call := (call builder interpreter file).
#[local] Abbreviation event := (event builder interpreter file).

(** Calls that construct, train, save or load a ContextBuilder or an
    Interpreter. *)
Definition is_model_call (c : call) : bool :=
  match c with
  | ContextBuilder_init _ _ _ _ _ _ _ | ContextBuilder_to _ _
  | ContextBuilder_fit _ _ _ _ _ _ _ _ | ContextBuilder_save _ _
  | ContextBuilder_load _ _ | Interpreter_init _ _ _ _ _
  | Interpreter_fit _ _ _ _ _ _ _ | Interpreter_save _ _
  | Interpreter_load _ _ => true
  | _ => false
  end.

Definition returned (ev : event) : bool :=
  match ev_answer ev with
  | inr _ => true
  | inl _ => false
  end.

Definition all_returned (tr : list event) : bool := forallb returned tr.

(** The names [events], [context], [label], [mapping] are bound by the
    answer of the preprocessor (lines 90, 93) and rebound by the answer
    of [torch.load] (lines 109-114); no other line assigns them all. *)
Definition rebind (v : option sequences) (ev : event) : option sequences :=
  match ev_answer ev with
  | inr (VSequences d) => Some d
  | _ => v
  end.

Definition bound_sequences (tr : list event) : option sequences :=
  fold_left rebind tr None.

(** The objects most recently returned to the script. *)
Definition latest_builder (tr : list event) : option builder :=
  fold_left (fun v ev =>
    match ev_answer ev with inr (VBuilder cb) => Some cb | _ => v end) tr None.

Definition latest_interpreter (tr : list event) : option interpreter :=
  fold_left (fun v ev =>
    match ev_answer ev with inr (VInterpreter i) => Some i | _ => v end) tr None.

(** [every_event Q]: every call of the run, with its answer, satisfies
    [Q]. *)
Definition every_event {R} (Q : event -> Prop) : list event -> exn + R -> Prop :=
  fun tr _ => Forall Q tr.

(** Answers that rebind the four names. *)
Definition rebinds (ev : event) : bool :=
  match ev_answer ev with
  | inr (VSequences _) => true
  | _ => false
  end.

Definition is_show_sequences (c : call) : bool :=
  match c with
  | show_sequences _ _ _ _ _ => true
  | _ => false
  end.


Definition is_interpreter_fit (c : call) : bool :=
  match c with
  | Interpreter_fit _ _ _ _ _ _ _ => true
  | _ => false
  end.

(** [each_with_past ok past tr]: every event of [tr] satisfies [ok]
    together with the events before it, [past] being those before [tr]. *)
Fixpoint each_with_past (ok : list event -> event -> Prop)
    (past tr : list event) : Prop :=
  match tr with
  | [] => True
  | ev :: tr' => ok past ev /\ each_with_past ok (past ++ [ev])%list tr'
  end.


(** [triple Pre p Post Exc]: started after a past satisfying [Pre], every
    run of [p] that returns [x] leaves a past satisfying [Post _ x], and
    every run that raises [e] one satisfying [Exc _ e]. *)
Definition triple {R} (Pre : list event -> Prop) (p : prog builder interpreter file R)
    (Post : list event -> R -> Prop) (Exc : list event -> exn -> Prop) : Prop :=
  forall past, Pre past ->
    all_runs p (fun tr o =>
      match o with
      | inr x => Post (past ++ tr)%list x
      | inl e => Exc (past ++ tr)%list e
      end).

(** The settings a call hands to the collaborators are those of the
    namespace. *)
Definition consumes (a : args) (c : call) : Prop :=
  match c with
  | Preprocessor_csv p _ | Preprocessor_txt p _ =>
      p_length p = args_length a /\ p_timeout p = args_timeout a
  | ContextBuilder_init _ _ hidden_size _ max_length _ _ =>
      hidden_size = args_hidden a /\ max_length = args_length a
  | ContextBuilder_fit _ _ _ epochs batch_size _ _ _ =>
      epochs = args_epochs a /\ batch_size = args_batch a
  | Interpreter_init _ _ eps min_samples threshold =>
      eps = args_epsilon a /\ min_samples = args_min_samples a
      /\ threshold = args_confidence a
  | _ => True
  end.

(** The number of events that lines 130-134 leave in [args.events]. *)
Definition number_of_events (py_int : string -> exn + Z) (a : args)
    (v : option sequences) : option Z :=
  if String.eqb (args_events a) "auto" then
    match v with
    | Some d => Some (Z.of_nat (size (s_mapping d)))
    | None => None
    end
  else
    match py_int (args_events a) with
    | inr z => Some z
    | inl _ => None
    end.

End Traces.

(** An option is supplied when argparse found it on the command line,
    however it was written. *)
Definition supplied (o : option_name) (cl : list argument) : Prop :=
  exists v, In (Given o v) cl.

(** ** Facts about runs *)

Section Runs.

Context {builder interpreter file : Type}.
#[local] Abbreviation call := (call builder interpreter file).
#[local] Abbreviation prog := (prog builder interpreter file).
#[local] Abbreviation event := (event builder interpreter file).
#[local] Abbreviation world := (world builder interpreter file).

Lemma all_runs_mono {R} (p : prog R) (P Q : list event -> exn + R -> Prop) :
  (forall tr o, P tr o -> Q tr o) -> all_runs p P -> all_runs p Q.
Proof.
  revert P Q. induction p as [r|e|c k IH]; simpl; intros P Q HPQ HP; auto.
  intros a. eapply IH; [|apply HP]. simpl. auto.
Qed.

(** Every run against a world is one of the runs [all_runs] speaks of. *)
Lemma all_runs_exec {R} (p : prog R) (P : list event -> exn + R -> Prop) :
  all_runs p P ->
  forall (w : world) (s : wstate w),
    P (trace (exec w p s)) (outcome (exec w p s)).
Proof.
  revert P. induction p as [r|e|c k IH]; simpl; intros P HP w s; auto.
  apply (IH _ _ (HP _)).
Qed.

Lemma all_runs_bind {A R} (p : prog A) (f : A -> prog R)
    (P : list event -> exn + R -> Prop) :
  all_runs p (fun tr o =>
    match o with
    | inr x => all_runs (f x) (fun tr' o' => P (tr ++ tr')%list o')
    | inl e => P tr (inl e)
    end) ->
  all_runs (bind p f) P.
Proof.
  revert P. induction p as [r|e|c k IH]; simpl; intros P HP.
  - eapply all_runs_mono; [|apply HP]. auto.
  - exact HP.
  - intros a. apply IH. eapply all_runs_mono; [|apply HP].
    intros tr [e|x]; simpl; auto.
Qed.

Lemma all_runs_and {R} (p : prog R) (P Q : list event -> exn + R -> Prop) :
  all_runs p P -> all_runs p Q -> all_runs p (fun tr o => P tr o /\ Q tr o).
Proof.
  revert P Q. induction p as [r|e|c k IH]; simpl; intros P Q HP HQ.
  - split; assumption.
  - split; assumption.
  - intros a. apply (IH a _ _ (HP a) (HQ a)).
Qed.

Lemma every_event_after {R} (p : prog R) (Q : event -> Prop) (pre : list event) :
  Forall Q pre ->
  all_runs p (every_event Q) ->
  all_runs p (fun tr _ => Forall Q (pre ++ tr)%list).
Proof.
  intros Hpre. apply all_runs_mono. intros tr o Htr.
  apply Forall_app. split; assumption.
Qed.

(** Sequencing, when the continuation needs a fact [Post] about the
    value it receives. *)
Lemma every_event_bind {A R} (p : prog A) (f : A -> prog R) (Q : event -> Prop)
    (Post : A -> Prop) :
  all_runs p (fun tr o => every_event Q tr o /\ forall x, o = inr x -> Post x) ->
  (forall x, Post x -> all_runs (f x) (every_event Q)) ->
  all_runs (bind p f) (every_event Q).
Proof.
  intros Hp Hf. apply all_runs_bind. eapply all_runs_mono; [|apply Hp].
  intros tr [e|x] [Htr Hx]; simpl.
  - exact Htr.
  - apply every_event_after; [exact Htr|]. apply Hf, Hx. reflexivity.
Qed.

Lemma every_event_seq {A R} (p : prog A) (f : A -> prog R) (Q : event -> Prop) :
  all_runs p (every_event Q) ->
  (forall x, all_runs (f x) (every_event Q)) ->
  all_runs (bind p f) (every_event Q).
Proof.
  intros Hp Hf. apply (every_event_bind p f Q (fun _ => True)); auto.
  eapply all_runs_mono; [|apply Hp]. auto.
Qed.

Lemma every_event_vis {R} (c : call) (k : exn + ret_type c -> prog R)
    (Q : event -> Prop) :
  (forall a, Q (log c a)) ->
  (forall a, all_runs (k a) (every_event Q)) ->
  all_runs (Vis c k) (every_event Q).
Proof.
  intros Hc Hk a. simpl. eapply all_runs_mono; [|apply (Hk a)].
  intros tr o Htr. constructor; auto.
Qed.

Lemma every_event_do (c : call) (Q : event -> Prop) :
  (forall a, Q (log c a)) -> all_runs (do c) (every_event Q).
Proof.
  intros Hc. apply every_event_vis; [exact Hc|]. intros [e|x]; constructor.
Qed.

Lemma every_event_finally {R} (p : prog R) (fin : prog unit) (Q : event -> Prop) :
  all_runs p (every_event Q) ->
  all_runs fin (every_event Q) ->
  all_runs (finally p fin) (every_event Q).
Proof.
  intros Hp Hfin.
  enough (H : forall pre,
    all_runs p (fun tr _ => Forall Q (pre ++ tr)%list) ->
    all_runs (finally p fin) (fun tr _ => Forall Q (pre ++ tr)%list)).
  { apply (H []). exact Hp. }
  clear Hp. induction p as [r|e|c k IH]; simpl; intros pre Hp.
  - rewrite app_nil_r in Hp. apply all_runs_bind.
    eapply all_runs_mono; [|apply Hfin].
    intros tr [e|[]] Htr; simpl; [|rewrite app_nil_r]; apply Forall_app; auto.
  - rewrite app_nil_r in Hp. apply all_runs_bind.
    eapply all_runs_mono; [|apply Hfin].
    intros tr [e'|[]] Htr; simpl; [|rewrite app_nil_r]; apply Forall_app; auto.
  - intros a. specialize (IH a (pre ++ [log c a])%list).
    eapply all_runs_mono; [|apply IH].
    + intros tr o. simpl. rewrite <- app_assoc. auto.
    + eapply all_runs_mono; [|apply (Hp a)].
      intros tr o. simpl. rewrite <- app_assoc. auto.
Qed.

Lemma every_event_if_given {R} (o : option string) (f : string -> prog R)
    (els : prog R) (Q : event -> Prop) :
  (forall p, all_runs (f p) (every_event Q)) ->
  all_runs els (every_event Q) ->
  all_runs (if_given o f els) (every_event Q).
Proof.
  intros Hf Hels. unfold if_given. destruct o as [p|]; [|exact Hels].
  destruct (String.eqb p ""); auto.
Qed.

Lemma each_with_past_app (ok : list event -> event -> Prop)
    (past tr tr' : list event) :
  each_with_past ok past (tr ++ tr') <->
  each_with_past ok past tr /\ each_with_past ok (past ++ tr) tr'.
Proof.
  revert past. induction tr as [|ev tr IH]; simpl; intros past.
  - rewrite app_nil_r. tauto.
  - rewrite IH, <- app_assoc. simpl. tauto.
Qed.

(** The reading of [each_with_past]: wherever the trace is cut, the event
    at the cut satisfies [ok] with what precedes it. *)
Lemma each_with_past_at (ok : list event -> event -> Prop)
    (tr before after : list event) (ev : event) :
  each_with_past ok [] tr -> tr = (before ++ ev :: after)%list -> ok before ev.
Proof.
  intros H ->. apply each_with_past_app in H. destruct H as [_ H].
  simpl in H. apply H.
Qed.

Lemma each_with_past_every (ok : list event -> event -> Prop)
    (Q : event -> Prop) (past tr : list event) :
  (forall before ev, Q ev -> ok before ev) ->
  Forall Q tr -> each_with_past ok past tr.
Proof.
  intros HQ H. revert past. induction H as [|ev tr Hev _ IH]; simpl; auto.
Qed.

Lemma all_runs_true {R} (p : prog R) : all_runs p (fun _ _ => True).
Proof. induction p as [r|e|c k IH]; simpl; auto. Qed.

Lemma triple_any {R} (p : prog R) :
  triple (fun _ => True) p (fun _ _ => True) (fun _ _ => True).
Proof.
  intros past _. eapply all_runs_mono; [|apply all_runs_true].
  intros tr [e|x] _; exact I.
Qed.

Lemma triple_bind {A R} (Pre : list event -> Prop) (p : prog A)
    (Mid : list event -> A -> Prop) (f : A -> prog R)
    (Post : list event -> R -> Prop) (Exc : list event -> exn -> Prop) :
  triple Pre p Mid Exc ->
  (forall x, triple (fun past => Mid past x) (f x) Post Exc) ->
  triple Pre (bind p f) Post Exc.
Proof.
  intros Hp Hf past Hpre. apply all_runs_bind.
  eapply all_runs_mono; [|apply (Hp past Hpre)].
  intros tr [e|x] H; simpl; [exact H|].
  eapply all_runs_mono; [|apply (Hf x _ H)].
  intros tr' o'. rewrite app_assoc. auto.
Qed.

Lemma triple_conseq {R} (Pre Pre' : list event -> Prop) (p : prog R)
    (Post Post' : list event -> R -> Prop) (Exc Exc' : list event -> exn -> Prop) :
  (forall past, Pre' past -> Pre past) ->
  (forall past x, Post past x -> Post' past x) ->
  (forall past e, Exc past e -> Exc' past e) ->
  triple Pre p Post Exc -> triple Pre' p Post' Exc'.
Proof.
  intros HPre HPost HExc H past Hpast.
  eapply all_runs_mono; [|apply (H past (HPre _ Hpast))].
  intros tr [e|x]; auto.
Qed.

(** A step all of whose events satisfy [Q] keeps an invariant of the past
    that such events keep. *)
Lemma triple_every {R} (p : prog R) (Q : event -> Prop) (Inv : list event -> Prop) :
  (forall past tr, Inv past -> Forall Q tr -> Inv (past ++ tr)%list) ->
  all_runs p (every_event Q) ->
  triple Inv p (fun past _ => Inv past) (fun past _ => Inv past).
Proof.
  intros HInv Hp past Hpast. eapply all_runs_mono; [|apply Hp].
  intros tr [e|x] Htr; apply HInv; assumption.
Qed.

Lemma triple_run {R} (p : prog R) (Post : list event -> R -> Prop)
    (Exc : list event -> exn -> Prop) :
  triple (fun past => past = []) p Post Exc ->
  forall (w : world) (s : wstate w),
    match outcome (exec w p s) with
    | inr x => Post (trace (exec w p s)) x
    | inl e => Exc (trace (exec w p s)) e
    end.
Proof.
  intros H w s. apply (all_runs_exec _ _ (H [] eq_refl) w s).
Qed.

(** Answers that do not rebind the names leave them as they were. *)
Lemma fold_rebind_same (tr : list event) (v : option sequences) :
  Forall (fun ev => rebinds ev = false) tr -> fold_left rebind tr v = v.
Proof.
  induction 1 as [|ev tr Hev _ IH]; simpl; [reflexivity|].
  rewrite <- IH at 2. f_equal. unfold rebind, rebinds in *.
  destruct (ev_answer ev) as [e|[]]; try reflexivity; discriminate.
Qed.

(** A run of [bind p f] is a run of [p] followed, when [p] returns, by a
    run of [f] on the value returned. *)
Lemma exec_bind {A R} (w : world) (p : prog A) (f : A -> prog R) (s : wstate w) :
  exec w (bind p f) s =
  let r1 := exec w p s in
  match outcome r1 with
  | inr x =>
      let r2 := exec w (f x) (final_world r1) in
      Run (trace r1 ++ trace r2)%list (outcome r2) (final_world r2)
  | inl e => Run (trace r1) (inl e) (final_world r1)
  end.
Proof.
  revert s. induction p as [r|e|c k IH]; simpl; intros s.
  - destruct (exec w (f r) s); reflexivity.
  - reflexivity.
  - rewrite IH. simpl.
    destruct (outcome (exec w (k (handle w c s).1) (handle w c s).2));
      reflexivity.
Qed.

Lemma bound_sequences_app (tr tr' : list event) :
  bound_sequences (tr ++ tr') = fold_left rebind tr' (bound_sequences tr).
Proof. apply fold_left_app. Qed.

Lemma all_returned_app (tr tr' : list event) :
  all_returned (tr ++ tr') = all_returned tr && all_returned tr'.
Proof. apply forallb_app. Qed.

End Runs.

(** Structural proof that every call of a program satisfies a predicate;
    [leaf] proves it of each call the script writes. *)
Ltac head_of p :=
  lazymatch p with
  | ?f _ => head_of f
  | ?f => f
  end.

Ltac calls special leaf :=
  first
  [ solve [special]
  | lazymatch goal with
    | |- all_runs (bind _ _) _ =>
        apply every_event_seq; [calls special leaf | intros; calls special leaf]
    | |- all_runs (finally _ _) _ =>
        apply every_event_finally; calls special leaf
    | |- all_runs (do ?c) _ => apply (every_event_do c); leaf
    | |- all_runs (Ret _) _ => apply Forall_nil_2
    | |- all_runs (Raise _) _ => apply Forall_nil_2
    | |- all_runs (if_given _ _ _) _ =>
        apply every_event_if_given; [intros; calls special leaf | calls special leaf]
    | |- all_runs (name _ ?v) _ => destruct v; apply Forall_nil_2
    | |- all_runs (lift ?r) _ => destruct r; apply Forall_nil_2
    | |- all_runs (if ?b then _ else _) _ => destruct b; calls special leaf
    | |- all_runs (match args_mode ?a with _ => _ end) _ =>
        destruct (args_mode a); calls special leaf
    | |- all_runs (let _ := _ in _) _ => cbv zeta; calls special leaf
    | |- all_runs ?p _ => let h := head_of p in unfold h; calls special leaf
    end ].

(** The common case: a fact about the call alone. *)
Ltac about_calls := calls ltac:(fail) ltac:(intros ?; simpl; auto).

(** Symbolic execution of a small program under every answer. *)
Ltac run_step :=
  match goal with
  | |- forall _, _ => intro
  | |- context [match ?x with _ => _ end] =>
      match type of x with
      | sum _ _ => destruct x
      | option _ => destruct x eqn:?
      | bool => destruct x eqn:?
      | mode => destruct x eqn:?
      | unit => destruct x
      end
  end.

Ltac run_all := repeat (cbn; run_step); cbn.

(** ** Properties of the script *)

Section Properties.

Context {builder interpreter file : Type}.
Variable NO_EVENT : Z.
Variable py_int : string -> exn + Z.
#[local] Abbreviation call := (call builder interpreter file).
#[local] Abbreviation prog := (prog builder interpreter file).
#[local] Abbreviation event := (event builder interpreter file).
#[local] Abbreviation world := (world builder interpreter file).

(** *** Section A of the script *)

(** What section A leaves in the four names is what its trace says; when
    it raises although every call returned, nothing was bound. *)
Lemma sequences_section_binds (a : args) (pre : preprocessor) :
  all_runs (sequences_section a pre)
    (fun (tr : list event) o =>
       match o with
       | inr v => bound_sequences tr = v
       | inl _ => all_returned tr = true -> bound_sequences tr = None
       end).
Proof.
  unfold sequences_section, load_files, save_sequences, load_sequences,
    with_open, if_given, name, do.
  run_all; try reflexivity; try discriminate.
Qed.

Lemma sequences_section_no_model (a : args) (pre : preprocessor) :
  all_runs (sequences_section a pre)
    (every_event (fun ev : event => is_model_call (ev_call ev) = false)).
Proof. about_calls. Qed.

Lemma sequence_mode_no_model {R} (v : option sequences) :
  all_runs (sequence_mode NO_EVENT (R:=R) v)
    (every_event (fun ev : event => is_model_call (ev_call ev) = false)).
Proof. about_calls. Qed.

(** The shape of a run in sequence mode. *)
Lemma sequence_mode_runs (a : args) :
  args_mode a = Sequence ->
  all_runs (main NO_EVENT py_int a) (fun (tr : list event) o =>
    Forall (fun ev => is_model_call (ev_call ev) = false) tr
    /\ (exists e, o = inl e)
    /\ (all_returned tr = true -> forall d, bound_sequences tr = Some d ->
        o = inl (SystemExit None)
        /\ exists pre,
             bound_sequences pre = Some d
             /\ tr = (pre ++ [Event (show_sequences (s_context d) (s_events d)
                               (s_label d) (s_mapping d) NO_EVENT)
                               (inr VNone)])%list)).
Proof.
  intros Hm. unfold main. rewrite Hm.
  apply all_runs_bind.
  eapply all_runs_mono;
    [|apply (all_runs_and _ _ _ (sequences_section_no_model a _)
               (sequences_section_binds a _))].
  intros tr [e|v] [Hn Hb]; simpl.
  - split; [exact Hn|]. split; [eauto|].
    intros Hr d Hd. rewrite (Hb Hr) in Hd. discriminate.
  - unfold sequence_mode, name, do. destruct v as [d|]; simpl.
    + intros [e|[]]; simpl.
      * split; [apply Forall_app; split; [exact Hn|repeat constructor]|].
        split; [eauto|]. rewrite all_returned_app. simpl.
        rewrite andb_false_r. discriminate.
      * split; [apply Forall_app; split; [exact Hn|repeat constructor]|].
        split; [eauto|]. intros _ d'. rewrite bound_sequences_app. simpl.
        unfold rebind. simpl. rewrite Hb. intros [= <-].
        split; [reflexivity|]. exists tr. split; [exact Hb|reflexivity].
    + rewrite app_nil_r. split; [exact Hn|]. split; [eauto|].
      intros _ d Hd. rewrite Hb in Hd. discriminate.
Qed.

(** C2: in sequence mode no model is involved.  Whatever the
    collaborators answer, a run with [mode = sequence] makes no call that
    constructs, trains, saves or loads a ContextBuilder or an Interpreter
    and never falls through to the model sections: it ends by [exit()] or
    by an exception.  When its calls return and the sequences are bound,
    its last call renders them and the script exits. *)
Theorem sequence_mode_involves_no_model (a : args) (w : world) (s : wstate w) :
  args_mode a = Sequence ->
  let r := exec w (main NO_EVENT py_int a) s in
  Forall (fun ev => is_model_call (ev_call ev) = false) (trace r)
  /\ (exists e, outcome r = inl e)
  /\ (all_returned (trace r) = true ->
      forall d, bound_sequences (trace r) = Some d ->
      outcome r = inl (SystemExit None)
      /\ exists pre,
           bound_sequences pre = Some d
           /\ trace r =
              (pre ++ [Event (show_sequences (s_context d) (s_events d)
                         (s_label d) (s_mapping d) NO_EVENT) (inr VNone)])%list).
Proof.
  intros Hm. exact (all_runs_exec _ _ (sequence_mode_runs a Hm) w s).
Qed.

(** C8: [--csv] and [--txt] exclude each other.  When both are supplied
    the script raises [ValueError] before it makes any call: nothing is
    read, preprocessed, trained or clustered, and the world is as it
    was. *)
Theorem csv_txt_exclusive (a : args) (w : world) (s : wstate w) (c t : string) :
  args_csv a = Some c -> args_txt a = Some t ->
  exec w (main NO_EVENT py_int a) s
  = Run [] (inl (ValueError "Please specify EITHER --csv OR --txt.")) s.
Proof.
  intros Hc Ht. unfold main, sequences_section, load_files.
  rewrite Hc, Ht. reflexivity.
Qed.



(** *** The model sections make no call of section A *)

Lemma model_sections_keep_names (a : args) (v : option sequences) :
  all_runs (model_sections py_int a v)
    (every_event (fun ev : event =>
       rebinds ev = false /\ is_show_sequences (ev_call ev) = false)).
Proof. calls ltac:(fail) ltac:(intros [?|?]; split; reflexivity). Qed.

Lemma sequences_section_no_show (a : args) (pre : preprocessor) :
  all_runs (sequences_section a pre)
    (every_event (fun ev : event => is_show_sequences (ev_call ev) = false)).
Proof. about_calls. Qed.

Lemma not_shown (tr : list event) c e l m n ans :
  Forall (fun ev => is_show_sequences (ev_call ev) = false) tr ->
  ~ In (Event (show_sequences c e l m n) ans) tr.
Proof.
  intros H Hin. rewrite List.Forall_forall in H. apply H in Hin. discriminate.
Qed.

Lemma show_sequences_args (a : args) :
  all_runs (main NO_EVENT py_int a) (fun (tr : list event) _ =>
    forall c e l m n ans,
      In (Event (show_sequences c e l m n) ans) tr ->
      exists d, bound_sequences tr = Some d
        /\ c = s_context d /\ e = s_events d /\ l = s_label d
        /\ m = s_mapping d /\ n = NO_EVENT).
Proof.
  unfold main. apply all_runs_bind.
  eapply all_runs_mono;
    [|apply (all_runs_and _ _ _ (sequences_section_no_show a _)
               (sequences_section_binds a _))].
  intros tr o [Hn Hb]. unfold every_event in Hn.
  destruct o as [e|v]; simpl.
  { intros c e' l m n ans Hin. destruct (not_shown _ _ _ _ _ _ _ Hn Hin). }
  destruct (args_mode a).
  1:{ (* sequence mode: the one call of [show_sequences] *)
    unfold sequence_mode, name, do. destruct v as [d|]; simpl.
    + intros x. destruct x as [ex|[]]; simpl;
        intros c e l m n ans Hin; apply in_app_or in Hin;
        (destruct Hin as [Hin|[Heq|[]]];
          [destruct (not_shown _ _ _ _ _ _ _ Hn Hin)|]);
        exists d; rewrite bound_sequences_app;
        (split; [exact Hb|]);
        injection Heq as <- <- <- <- <- _; tauto.
    + rewrite app_nil_r. intros c e l m n ans Hin.
      destruct (not_shown _ _ _ _ _ _ _ Hn Hin). }
  (* the other modes never render *)
  all: eapply all_runs_mono; [|apply model_sections_keep_names].
  all: intros tr' o' Hm c e l m n ans Hin; apply in_app_or in Hin.
  all: destruct Hin as [Hin|Hin]; [destruct (not_shown _ _ _ _ _ _ _ Hn Hin)|].
  all: eapply not_shown in Hin; [destruct Hin|].
  all: eapply Forall_impl; [exact Hm|]; simpl; tauto.
Qed.

(** C6: the reporting boundary receives the five values verbatim.  In
    every run, a call of [show_sequences] has as its arguments the
    [context], [events], [label] and [mapping] last returned by the
    preprocessor or by [torch.load], unmodified, and the [NO_EVENT] of the
    preprocessor. *)
Theorem show_sequences_verbatim (a : args) (w : world) (s : wstate w)
    (c e : tensor) (l : option tensor) (m : gmap Z string) (n : Z)
    (ans : exn + value builder interpreter file) :
  let r := exec w (main NO_EVENT py_int a) s in
  In (Event (show_sequences c e l m n) ans) (trace r) ->
  exists d, bound_sequences (trace r) = Some d
    /\ c = s_context d /\ e = s_events d /\ l = s_label d
    /\ m = s_mapping d /\ n = NO_EVENT.
Proof.
  intros r. apply (all_runs_exec _ _ (show_sequences_args a) w s).
Qed.


(** *** The initial score *)

Lemma minus_four (n : nat) :
  map (scalar_sub 4) (repeat (SFloat 0%float) n) = repeat (SFloat (-4)%float) n.
Proof. induction n as [|n IH]; simpl; [reflexivity|]. rewrite IH. reflexivity. Qed.

(** *** The settings *)

Lemma main_consumes (a : args) :
  all_runs (main NO_EVENT py_int a)
    (every_event (fun ev : event => consumes a (ev_call ev))).
Proof. about_calls. Qed.

(** The calls that take settings. *)
Definition calls_preprocessor (c : call) : bool :=
  match c with
  | Preprocessor_csv _ _ | Preprocessor_txt _ _ => true
  | _ => false
  end.

Definition constructs_builder (c : call) : bool :=
  match c with
  | ContextBuilder_init _ _ _ _ _ _ _ => true
  | _ => false
  end.

Definition fits_builder (c : call) : bool :=
  match c with
  | ContextBuilder_fit _ _ _ _ _ _ _ _ => true
  | _ => false
  end.

Definition constructs_interpreter (c : call) : bool :=
  match c with
  | Interpreter_init _ _ _ _ _ => true
  | _ => false
  end.

(** A call of the kind [k] was made and returned. *)
Definition occurs (k : call -> bool) (tr : list event) : bool :=
  existsb (fun ev => k (ev_call ev) && returned ev) tr.

(** [P] holds of the trace of every run that returns. *)
Definition on_return {R} (P : list event -> Prop)
    : list event -> exn + R -> Prop :=
  fun tr o =>
    match o with
    | inr _ => P tr
    | inl _ => True
    end.

Lemma occurs_app (k : call -> bool) (tr tr' : list event) :
  occurs k (tr ++ tr') = occurs k tr || occurs k tr'.
Proof. apply existsb_app. Qed.

Lemma occurs_first {A R} (p : prog A) (f : A -> prog R) (k : call -> bool) :
  all_runs p (on_return (fun tr => occurs k tr = true)) ->
  all_runs (bind p f) (on_return (fun tr => occurs k tr = true)).
Proof.
  intros Hp. apply all_runs_bind. eapply all_runs_mono; [|apply Hp].
  intros tr [e|x] H; simpl; [exact I|].
  eapply all_runs_mono; [|apply all_runs_true].
  intros tr' [e|y] _; simpl; [exact I|].
  rewrite occurs_app. simpl in H. rewrite H. reflexivity.
Qed.

Lemma occurs_later {A R} (p : prog A) (f : A -> prog R) (k : call -> bool) :
  (forall x, all_runs (f x) (on_return (fun tr => occurs k tr = true))) ->
  all_runs (bind p f) (on_return (fun tr => occurs k tr = true)).
Proof.
  intros Hf. apply all_runs_bind.
  eapply all_runs_mono; [|apply all_runs_true].
  intros tr [e|x] _; simpl; [exact I|].
  eapply all_runs_mono; [|apply Hf].
  intros tr' [e|y] H; simpl; [exact I|].
  rewrite occurs_app. simpl in H. rewrite H. apply orb_true_r.
Qed.

(** Sequence mode never returns: it ends with [exit()] or an exception. *)
Lemma sequence_mode_ends {R} (v : option sequences) (P : list event -> Prop) :
  all_runs (sequence_mode (R := R) NO_EVENT v) (on_return P).
Proof. unfold sequence_mode, name, do. run_all; exact I. Qed.

Ltac in_model_sections Hm :=
  unfold main; apply occurs_later; intros ?;
  destruct (args_mode _) eqn:Hm; [apply sequence_mode_ends|..];
  unfold model_sections;
  (do 3 (apply occurs_later; intros ?)); cbv zeta.

Lemma main_builder_init (a : args) :
  all_runs (main NO_EVENT py_int a)
    (on_return (fun tr => occurs constructs_builder tr = true)).
Proof.
  in_model_sections Hm; apply occurs_first;
    unfold context_builder_section, new_context_builder;
    (do 2 apply occurs_first); intros [e|cb]; simpl; trivial;
    intros [e|cb']; simpl; trivial.
Qed.

Lemma main_interpreter_init (a : args) :
  all_runs (main NO_EVENT py_int a)
    (on_return (fun tr => occurs constructs_interpreter tr = true)).
Proof.
  in_model_sections Hm; apply occurs_later; intros cb; apply occurs_first;
    unfold interpreter_section, new_interpreter; apply occurs_first;
    intros [e|i]; simpl; trivial.
Qed.

Lemma main_builder_fit (a : args) :
  args_mode a = Train ->
  all_runs (main NO_EVENT py_int a)
    (on_return (fun tr => occurs fits_builder tr = true)).
Proof.
  intros Ha. in_model_sections Hm; try congruence. apply occurs_first.
  unfold context_builder_section. apply occurs_later. intros cb.
  apply occurs_first. unfold train_context_builder. rewrite Hm.
  intros [e|[]]; simpl; trivial.
Qed.

Lemma main_interpreter_fit (a : args) :
  args_mode a = Train ->
  all_runs (main NO_EVENT py_int a)
    (on_return (fun tr => occurs is_interpreter_fit tr = true)).
Proof.
  intros Ha. in_model_sections Hm; try congruence.
  apply occurs_later. intros cb. apply occurs_first.
  unfold interpreter_section. apply occurs_later. intros i.
  apply occurs_first. unfold fit_interpreter, lift, do. rewrite Hm.
  destruct (initial_score _ _) as [e|score]; simpl; [exact I|].
  intros [e|[]]; simpl; trivial.
Qed.

Lemma main_preprocessing (a : args) :
  truthy (args_csv a) || truthy (args_txt a) = true ->
  all_runs (main NO_EVENT py_int a)
    (on_return (fun tr => occurs calls_preprocessor tr = true)).
Proof.
  intros Ha. unfold main, sequences_section. do 2 apply occurs_first.
  revert Ha. unfold load_files, if_given, truthy, is_not_none, do.
  destruct (args_csv a) as [p|]; [destruct (String.eqb p "")|];
    (destruct (args_txt a) as [q|]; [destruct (String.eqb q "")|]);
    simpl; try discriminate; intros _; try exact I;
    intros [e|d]; simpl; trivial.
Qed.

(** Nothing in the script reads [args.delta]. *)
Lemma main_without_delta (a : args) (d : float) :
  main NO_EVENT py_int (set_delta d a)
  = main (builder := builder) (interpreter := interpreter) (file := file)
      NO_EVENT py_int a.
Proof. destruct a. reflexivity. Qed.

Section Defaults.

Variable py_float : string -> exn + float.

Ltac store_cases H :=
  unfold store, with_int, with_float, parser_error in H;
  repeat match type of H with
  | context [match ?o with Csv => _ | _ => _ end] => destruct o
  | context [py_int ?v] => destruct (py_int v)
  | context [py_float ?v] => destruct (py_float v)
  end;
  try discriminate; try congruence;
  injection H as <-; reflexivity.

Lemma store_all_keeps {X} (field : args -> X) (o : option_name) :
  (forall a o' v a', store py_int py_float a o' v = inr a' -> o' <> o ->
                     field a' = field a) ->
  (forall m a, field (set_mode m a) = field a) ->
  forall cl m surplus a a',
    store_all py_int py_float m surplus a cl = inr a' ->
    ~ supplied o cl -> field a' = field a.
Proof.
  intros Hstore Hmode. unfold supplied.
  induction cl as [|x cl IH]; simpl; intros m surplus a a' H Hn.
  - destruct m; [|discriminate]. destruct surplus; [discriminate|].
    injection H as <-. apply Hmode.
  - assert (Hn' : ~ (exists v, In (Given o v) cl))
      by (intros [v Hv]; apply Hn; exists v; auto).
    destruct x as [s|o' v| | | |]; try discriminate.
    + destruct m; [exact (IH _ _ _ _ H Hn')|].
      destruct (mode_of_string s); [|discriminate].
      exact (IH _ _ _ _ H Hn').
    + destruct (store py_int py_float a o' v) as [e|a1] eqn:H1; [discriminate|].
      rewrite (IH _ _ _ _ H Hn').
      apply (Hstore _ _ _ _ H1). intros ->. apply Hn. exists v. auto.
    + exact (IH _ _ _ _ H Hn').
Qed.

Lemma parse_default {X} (field : args -> X) (o : option_name) (x : X) :
  (forall a o' v a', store py_int py_float a o' v = inr a' -> o' <> o ->
                     field a' = field a) ->
  (forall m a, field (set_mode m a) = field a) ->
  field (default_args Sequence) = x ->
  forall cl a, parse_args py_int py_float cl = inr a ->
    ~ supplied o cl -> field a = x.
Proof.
  intros Hs Hm Hd cl a H Hn. unfold parse_args in H.
  destruct (existsb is_ambiguous cl); [discriminate|].
  rewrite (store_all_keeps field o Hs Hm _ _ _ _ _ H Hn). exact Hd.
Qed.

Lemma parse_defaults (cl : list argument) (a : args) :
  parse_args py_int py_float cl = inr a ->
  (~ supplied Length cl -> args_length a = 10)
  /\ (~ supplied Timeout cl -> args_timeout a = PyInt 86400)
  /\ (~ supplied Hidden cl -> args_hidden a = 128)
  /\ (~ supplied Delta cl -> args_delta a = 0.1%float)
  /\ (~ supplied Confidence cl -> args_confidence a = 0.2%float)
  /\ (~ supplied Epsilon cl -> args_epsilon a = 0.1%float)
  /\ (~ supplied MinSamples cl -> args_min_samples a = 5)
  /\ (~ supplied Epochs cl -> args_epochs a = 10)
  /\ (~ supplied Batch cl -> args_batch a = 128).
Proof.
  intros H.
  repeat split; intros Hn;
    (eapply parse_default; [| | |exact H|exact Hn];
     [|reflexivity|reflexivity]);
    clear; intros a o' v a' H Hf; store_cases H.
Qed.

(** C5: the defaults of the configuration surface, and where they go.
    For a command line that parses, each of [length], [timeout],
    [hidden], [delta], [confidence], [epsilon], [min_samples], [epochs]
    and [batch] whose option is not supplied has its default (10, 86400,
    128, 0.1, 0.2, 0.1, 5, 10, 128) in the namespace.  Every call of the
    run takes its settings from the namespace: the preprocessor [length]
    and [timeout], the ContextBuilder [hidden] and [length], its [fit]
    [epochs] and [batch], the Interpreter [epsilon], [min_samples] and
    [confidence]; and a run that completes has made these calls: the
    two constructors, the preprocessor when an input file is given, the
    [fit] in train mode.  [delta] is the exception: it reaches no call,
    and the run is the same for every value of it. *)
Theorem defaults_reach_the_core (cl : list argument) (a : args) (w : world)
    (s : wstate w) :
  parse_args py_int py_float cl = inr a ->
  let r := exec w (main NO_EVENT py_int a) s in
  ((~ supplied Length cl -> args_length a = 10)
   /\ (~ supplied Timeout cl -> args_timeout a = PyInt 86400)
   /\ (~ supplied Hidden cl -> args_hidden a = 128)
   /\ (~ supplied Delta cl -> args_delta a = 0.1%float)
   /\ (~ supplied Confidence cl -> args_confidence a = 0.2%float)
   /\ (~ supplied Epsilon cl -> args_epsilon a = 0.1%float)
   /\ (~ supplied MinSamples cl -> args_min_samples a = 5)
   /\ (~ supplied Epochs cl -> args_epochs a = 10)
   /\ (~ supplied Batch cl -> args_batch a = 128))
  /\ Forall (fun ev => consumes a (ev_call ev)) (trace r)
  /\ (forall fin, outcome r = inr fin ->
        occurs constructs_builder (trace r) = true
        /\ occurs constructs_interpreter (trace r) = true
        /\ (args_mode a = Train -> occurs fits_builder (trace r) = true)
        /\ (truthy (args_csv a) || truthy (args_txt a) = true ->
            occurs calls_preprocessor (trace r) = true))
  /\ (forall d, exec w (main NO_EVENT py_int (set_delta d a)) s = r).
Proof.
  intros H r. split; [exact (parse_defaults cl a H)|].
  split; [exact (all_runs_exec _ _ (main_consumes a) w s)|].
  split; [|intros d; unfold r; rewrite main_without_delta; reflexivity].
  intros fin Hfin.
  pose proof (all_runs_exec _ _ (main_builder_init a) w s) as H1.
  pose proof (all_runs_exec _ _ (main_interpreter_init a) w s) as H2.
  fold r in H1, H2. unfold on_return in H1, H2. rewrite Hfin in H1, H2.
  repeat split; trivial.
  - intros Hm. pose proof (all_runs_exec _ _ (main_builder_fit a Hm) w s) as H3.
    fold r in H3. unfold on_return in H3. rewrite Hfin in H3. exact H3.
  - intros Hc.
    pose proof (all_runs_exec _ _ (main_preprocessing a Hc) w s) as H3.
    fold r in H3. unfold on_return in H3. rewrite Hfin in H3. exact H3.
Qed.

End Defaults.

(** *** The initial score *)

(** [events] is what [.to(device)] returned for the events of the
    sequences bound. *)
Definition events_moved (events : tensor) (past : list event) : Prop :=
  exists d device,
    bound_sequences past = Some d
    /\ In (Event (tensor_to (s_events d) device) (inr (VTensor events))) past.

(** What [Interpreter.fit] is handed: the moved events as one column, and
    a score column of as many rows as the moved events have, every entry
    -4. *)
Definition scored (past : list event) (ev : event) : Prop :=
  match ev_call ev with
  | Interpreter_fit _ _ y score _ _ _ =>
      exists (events : tensor) (n : nat) (rest : list nat),
        events_moved events past
        /\ y = reshape_col events
        /\ t_shape events = n :: rest
        /\ t_shape score = [n; 1%nat]
        /\ t_data score = repeat (SFloat (-4)%float) n
  | _ => True
  end.

Definition all_scored (past : list event) : Prop :=
  each_with_past scored [] past.

(** An event after the move of [events]. *)
Definition scores_after (events : tensor) (ev : event) : Prop :=
  rebinds ev = false
  /\ match ev_call ev with
     | Interpreter_fit _ _ y score _ _ _ =>
         y = reshape_col events
         /\ exists (n : nat) (rest : list nat),
              t_shape events = n :: rest
              /\ t_shape score = [n; 1%nat]
              /\ t_data score = repeat (SFloat (-4)%float) n
     | _ => True
     end.

(** An event before it. *)
Definition unscored (ev : event) : Prop :=
  is_interpreter_fit (ev_call ev) = false /\ rebinds ev = false.

Lemma events_moved_later (events : tensor) (past tr : list event) :
  events_moved events past ->
  Forall (fun ev => rebinds ev = false) tr ->
  events_moved events (past ++ tr).
Proof.
  intros (d & device & Hb & Hin) Htr. exists d, device. split.
  - rewrite bound_sequences_app, fold_rebind_same; assumption.
  - apply in_or_app. left. exact Hin.
Qed.

Lemma scores_after_flow (events : tensor) (tr past : list event) :
  events_moved events past ->
  Forall (scores_after events) tr ->
  each_with_past scored past tr.
Proof.
  intros Hp Htr. revert past Hp.
  induction Htr as [|ev tr [Hr Hev] _ IH]; simpl; intros past Hp; [exact I|].
  split.
  - unfold scored. destruct (ev_call ev); trivial.
    destruct Hev as (Hy & n & rest & Hs & Hsh & Hd).
    exists events, n, rest. auto.
  - apply IH. apply events_moved_later; [exact Hp|].
    repeat constructor. exact Hr.
Qed.

Lemma unscored_flow (tr past : list event) :
  Forall (fun ev => is_interpreter_fit (ev_call ev) = false) tr ->
  each_with_past scored past tr.
Proof.
  intros H. eapply each_with_past_every; [|exact H].
  intros before ev Hev. unfold scored. cbv beta in Hev.
  destruct (ev_call ev); trivial; discriminate.
Qed.

Lemma unscored_step {R} (p : prog R) (v : option sequences) :
  all_runs p (every_event unscored) ->
  triple (fun past => all_scored past /\ bound_sequences past = v) p
    (fun past _ => all_scored past /\ bound_sequences past = v)
    (fun past _ => all_scored past).
Proof.
  intros Hp past [Hs Hb]. eapply all_runs_mono; [|apply Hp].
  intros tr o Htr.
  assert (Hall : all_scored (past ++ tr)).
  { apply each_with_past_app. split; [exact Hs|]. apply unscored_flow.
    eapply Forall_impl; [exact Htr|]. unfold unscored. simpl. tauto. }
  destruct o as [e|x]; [exact Hall|]. split; [exact Hall|].
  rewrite bound_sequences_app, fold_rebind_same; [exact Hb|].
  eapply Forall_impl; [exact Htr|]. unfold unscored. simpl. tauto.
Qed.

Lemma sequences_section_unscored (a : args) (pre : preprocessor) :
  triple (fun past => past = []) (sequences_section a pre)
    (fun past v => all_scored past /\ bound_sequences past = v)
    (fun past _ => all_scored past).
Proof.
  intros past ->. simpl.
  assert (Hq : all_runs (sequences_section a pre)
            (every_event (fun ev : event =>
               is_interpreter_fit (ev_call ev) = false))) by about_calls.
  eapply all_runs_mono;
    [|apply (all_runs_and _ _ _ Hq (sequences_section_binds a pre))].
  intros tr [e|v] [Hf Hb]; simpl; [apply unscored_flow, Hf|].
  split; [apply unscored_flow, Hf|exact Hb].
Qed.

Lemma cast_tensors_moves (device : string) (v : option sequences) :
  triple (fun past => all_scored past /\ bound_sequences past = v)
    (cast_tensors device v)
    (fun past cast => all_scored past /\ events_moved (fst cast) past)
    (fun past _ => all_scored past).
Proof.
  intros past [Hs Hb]. unfold cast_tensors, name, do.
  destruct v as [d|]; simpl; [|rewrite app_nil_r; exact Hs].
  assert (H : forall tr,
    Forall (fun ev : event => is_interpreter_fit (ev_call ev) = false) tr ->
    all_scored (past ++ tr)).
  { intros tr Htr. apply each_with_past_app. split; [exact Hs|].
    apply unscored_flow, Htr. }
  intros [e|events]; simpl; [apply H; repeat constructor|].
  intros [e|context]; simpl; [apply H; repeat constructor|].
  split; [apply H; repeat constructor|]. exists d, device. split.
  - rewrite bound_sequences_app. simpl. exact Hb.
  - apply in_or_app. right. simpl. auto.
Qed.

Lemma after_cast_scores (a : args) (n : Z) (device : string)
    (events context : tensor) :
  all_runs
    (cb <- context_builder_section a n device events context ;;
     i <- interpreter_section a n device events context cb ;;
     manual_analysis a ;;
     automatic_analysis a ;;
     Ret (Final cb i))%prog
    (every_event (scores_after events)).
Proof.
  calls ltac:(idtac;
    lazymatch goal with
    | |- all_runs (fit_interpreter _ _ _ _ _) _ =>
        unfold fit_interpreter, initial_score, shape0, lift, do;
        destruct (args_mode a); try apply Forall_nil_2;
        destruct (t_shape events) as [|k rest] eqn:Hshape; simpl;
        try apply Forall_nil_2;
        intros [?|[]]; repeat constructor; simpl;
        exists k, rest; rewrite minus_four; auto
    end)
    ltac:(intros [?|?]; repeat split; reflexivity).
Qed.

Lemma model_sections_scored (a : args) (v : option sequences) :
  triple (fun past => all_scored past /\ bound_sequences past = v)
    (model_sections py_int a v)
    (fun past _ => all_scored past) (fun past _ => all_scored past).
Proof.
  unfold model_sections.
  eapply triple_bind;
    [apply unscored_step;
     calls ltac:(fail) ltac:(intros [?|?]; repeat split; reflexivity)|].
  intros device.
  eapply triple_bind;
    [apply unscored_step;
     calls ltac:(fail) ltac:(intros [?|?]; repeat split; reflexivity)|].
  intros n.
  eapply triple_bind; [apply cast_tensors_moves|]. intros cast. cbv zeta.
  intros past [Hs Hm].
  eapply all_runs_mono; [|apply after_cast_scores].
  intros tr o Htr.
  assert (H : all_scored (past ++ tr)).
  { apply each_with_past_app. split; [exact Hs|].
    apply (scores_after_flow (fst cast)); assumption. }
  destruct o; exact H.
Qed.

Lemma main_scored (a : args) :
  triple (fun past => past = []) (main NO_EVENT py_int a)
    (fun past _ => all_scored past) (fun past _ => all_scored past).
Proof.
  unfold main.
  eapply triple_bind; [apply sequences_section_unscored|]. intros v.
  destruct (args_mode a); [|apply model_sections_scored..].
  eapply triple_conseq;
    [| | |apply (unscored_step (sequence_mode NO_EVENT v) v);
          calls ltac:(fail) ltac:(intros [?|?]; repeat split; reflexivity)];
    simpl; tauto.
Qed.

(** C7: the initial confidence score is the sentinel -4 for every point.
    Wherever a run calls [Interpreter.fit], the targets [y] are the
    reshaping to one column of [events], the tensor that [.to(device)]
    returned for the events of the sequences bound, and the score is a
    column with one row per entry of the first dimension of that same
    [events], each entry -4; when [events] is one-dimensional, the way
    the preprocessor returns it, [y] has as many rows as the score.  A
    run in train mode that completes has made that call. *)
Theorem initial_score_is_minus_four (a : args) (w : world) (s : wstate w) :
  let r := exec w (main NO_EVENT py_int a) s in
  (forall before after i X y score iterations batch_size verbose ans,
      trace r = (before
                 ++ Event (Interpreter_fit i X y score iterations batch_size
                             verbose) ans :: after)%list ->
      exists (d : sequences) (device : string) (events : tensor)
             (n : nat) (rest : list nat),
        bound_sequences before = Some d
        /\ In (Event (tensor_to (s_events d) device) (inr (VTensor events)))
             before
        /\ y = reshape_col events
        /\ t_shape events = n :: rest
        /\ t_shape score = [n; 1%nat]
        /\ t_data score = repeat (SFloat (-4)%float) n
        /\ (rest = [] -> t_shape y = [n; 1%nat]))
  /\ (args_mode a = Train -> forall fin, outcome r = inr fin ->
      occurs is_interpreter_fit (trace r) = true).
Proof.
  intros r. split.
  - intros before after i X y score it bs vb ans Htr.
    pose proof (triple_run _ _ _ (main_scored a) w s) as H. fold r in H.
    assert (Hall : all_scored (trace r)) by (destruct (outcome r); exact H).
    pose proof (each_with_past_at _ _ _ _ _ Hall Htr) as Hev.
    destruct Hev as (events & n & rest & (d & device & Hb & Hin) & Hy & Hs
                       & Hsh & Hd).
    exists d, device, events, n, rest. repeat split; trivial.
    intros ->. rewrite Hy. unfold reshape_col, numel. rewrite Hs. simpl.
    rewrite Nat.mul_1_r. reflexivity.
  - intros Hm fin Hfin.
    pose proof (all_runs_exec _ _ (main_interpreter_fit a Hm) w s) as H.
    fold r in H. unfold on_return in H. rewrite Hfin in H. exact H.
Qed.


(** *** The script, section by section *)

Definition in_section_A (ev : event) : Prop :=
  is_model_call (ev_call ev) = false /\ is_show_sequences (ev_call ev) = false.

Lemma sequences_section_calls (a : args) (pre : preprocessor) :
  all_runs (sequences_section a pre) (every_event in_section_A).
Proof. calls ltac:(fail) ltac:(intros ?; split; reflexivity). Qed.

Lemma main_by_sections (a : args)
    (P : list event -> exn + final builder interpreter -> Prop) :
  (forall tr e,
      Forall in_section_A tr ->
      (all_returned tr = true -> bound_sequences tr = None) ->
      P tr (inl e)) ->
  (forall tr,
      Forall in_section_A tr -> args_mode a = Sequence ->
      all_runs (sequence_mode NO_EVENT (bound_sequences tr))
        (fun tr' o' => P (tr ++ tr')%list o')) ->
  (forall tr,
      Forall in_section_A tr -> args_mode a <> Sequence ->
      all_runs (model_sections py_int a (bound_sequences tr))
        (fun tr' o' => P (tr ++ tr')%list o')) ->
  all_runs (main NO_EVENT py_int a) P.
Proof.
  intros Hraise Hseq Hmodel. unfold main. apply all_runs_bind.
  eapply all_runs_mono;
    [|apply (all_runs_and _ _ _ (sequences_section_calls a _)
               (sequences_section_binds a _))].
  intros tr [e|v] [Hn Hb]; [apply Hraise; assumption|]. subst v.
  destruct (args_mode a) eqn:Hm;
    [apply Hseq; auto | apply Hmodel; auto; discriminate..].
Qed.

(** *** The number of events *)

(** The sizes handed to the constructors are the number of events. *)
Definition sized (a : args) (v : option sequences) (c : call) : Prop :=
  match c with
  | ContextBuilder_init input_size output_size _ _ _ _ _ =>
      number_of_events py_int a v = Some input_size
      /\ output_size = input_size
  | Interpreter_init _ features _ _ _ =>
      number_of_events py_int a v = Some features
  | _ => True
  end.

Lemma sized_other (a : args) (v : option sequences) (c : call) :
  is_model_call c = false -> sized a v c.
Proof. destruct c; simpl; trivial; discriminate. Qed.

Lemma auto_events_result (a : args) (v : option sequences) :
  all_runs (auto_events py_int a v) (fun (tr : list event) o =>
    every_event (fun ev => sized a v (ev_call ev)) tr o
    /\ forall n, o = inr n -> number_of_events py_int a v = Some n).
Proof.
  unfold auto_events, number_of_events, name, lift, every_event.
  destruct (String.eqb (args_events a) "auto").
  - destruct v; simpl; (split; [constructor|]); intros n [=]. subst. reflexivity.
  - destruct (py_int (args_events a)); simpl; (split; [constructor|]);
      intros n [=]. subst. reflexivity.
Qed.

Lemma model_sections_sized (a : args) (v : option sequences) :
  all_runs (model_sections py_int a v)
    (every_event (fun ev : event => sized a v (ev_call ev))).
Proof.
  unfold model_sections. apply every_event_seq; [about_calls|]. intros device.
  apply (every_event_bind _ _ _
           (fun n => number_of_events py_int a v = Some n));
    [apply auto_events_result|].
  intros n Hn. about_calls.
Qed.

Lemma main_sized (a : args) :
  all_runs (main NO_EVENT py_int a) (fun (tr : list event) _ =>
    Forall (fun ev => sized a (bound_sequences tr) (ev_call ev)) tr).
Proof.
  apply main_by_sections.
  - intros tr _ Hn _. eapply Forall_impl; [exact Hn|].
    intros ev [Hev _]. apply sized_other, Hev.
  - intros tr Hn _. eapply all_runs_mono; [|apply sequence_mode_no_model].
    intros tr' o' Hn'. apply Forall_app. split.
    + eapply Forall_impl; [exact Hn|]. intros ev [Hev _]. apply sized_other, Hev.
    + eapply Forall_impl; [exact Hn'|]. intros ev Hev. apply sized_other, Hev.
  - intros tr Hn _.
    eapply all_runs_mono;
      [|apply (all_runs_and _ _ _ (model_sections_sized a _)
                 (model_sections_keep_names a _))].
    intros tr' o' [Hs Hk]. rewrite bound_sequences_app, fold_rebind_same.
    + apply Forall_app. split; [|exact Hs].
      eapply Forall_impl; [exact Hn|]. intros ev [Hev _]. apply sized_other, Hev.
    + eapply Forall_impl; [exact Hk|]. simpl. tauto.
Qed.

(** C10: the number of events sizes the model.  In every run the
    [input_size] and [output_size] of the ContextBuilder and the
    [features] of the Interpreter are the number of events: with
    [--events] left at ['auto'], [len(mapping)] for the mapping bound by
    section A; otherwise [int(args.events)]. *)
Theorem events_size_the_model (a : args) (w : world) (s : wstate w)
    (ev : event) :
  let r := exec w (main NO_EVENT py_int a) s in
  In ev (trace r) ->
  match ev_call ev with
  | ContextBuilder_init input_size output_size _ _ _ _ _ =>
      output_size = input_size
      /\ if String.eqb (args_events a) "auto" then
           exists d, bound_sequences (trace r) = Some d
                     /\ input_size = Z.of_nat (size (s_mapping d))
         else py_int (args_events a) = inr input_size
  | Interpreter_init _ features _ _ _ =>
      if String.eqb (args_events a) "auto" then
        exists d, bound_sequences (trace r) = Some d
                  /\ features = Z.of_nat (size (s_mapping d))
      else py_int (args_events a) = inr features
  | _ => True
  end.
Proof.
  intros r Hin.
  pose proof (all_runs_exec _ _ (main_sized a) w s) as H.
  rewrite List.Forall_forall in H. specialize (H _ Hin). fold r in H.
  unfold sized, number_of_events in H.
  destruct (ev_call ev); trivial;
    destruct (String.eqb (args_events a) "auto");
    destruct (bound_sequences (trace r)) as [d|];
    try destruct (py_int (args_events a));
    intuition (try discriminate; try congruence);
    exists d; split; congruence.
Qed.


(** *** The order of the two fits *)

(** [ContextBuilder.fit] has returned from a call on [(X, y)]. *)
Definition builder_fitted_on (X y : tensor) (past : list event) : Prop :=
  exists cb epochs batch_size learning_rate teach_ratio verbose,
    In (Event (ContextBuilder_fit cb X y epochs batch_size learning_rate
                 teach_ratio verbose) (inr VNone)) past.

Definition interpreter_fitted (past : list event) : Prop :=
  exists i X y score iterations batch_size verbose,
    In (Event (Interpreter_fit i X y score iterations batch_size verbose)
          (inr VNone)) past.

(** A call of [Interpreter.fit] comes after such a call on the same data. *)
Definition fit_order (past : list event) (ev : event) : Prop :=
  forall i X y score iterations batch_size verbose,
    ev_call ev = Interpreter_fit i X y score iterations batch_size verbose ->
    builder_fitted_on X y past.

Definition ordered (past : list event) : Prop := each_with_past fit_order [] past.

Lemma builder_fitted_on_later (X y : tensor) (past tr : list event) :
  builder_fitted_on X y past -> builder_fitted_on X y (past ++ tr).
Proof.
  intros (cb & ep & b & lr & t & v & Hin).
  exists cb, ep, b, lr, t, v. apply in_or_app. left. exact Hin.
Qed.

Lemma ordered_keep (past tr : list event) :
  ordered past ->
  Forall (fun ev => is_interpreter_fit (ev_call ev) = false) tr ->
  ordered (past ++ tr).
Proof.
  intros Hp Htr. apply each_with_past_app. split; [exact Hp|].
  eapply each_with_past_every; [|exact Htr].
  intros before ev Hev i X y sc it bs v Heq. simpl in Hev.
  rewrite Heq in Hev. discriminate.
Qed.

Lemma builder_is_fitted (a : args) (n : Z) (device : string)
    (events context : tensor) :
  args_mode a = Train ->
  all_runs (context_builder_section a n device events context)
    (fun (tr : list event) o =>
       forall cb : builder, o = inr cb ->
         builder_fitted_on context (reshape_col events) tr).
Proof.
  intros Hm.
  unfold context_builder_section, new_context_builder, train_context_builder,
    save_builder, load_builder, if_given, do.
  rewrite Hm. run_all; try congruence; unfold builder_fitted_on;
    do 6 eexists; simpl; eauto 10.
Qed.

Lemma context_builder_section_no_fit (a : args) (n : Z) (device : string)
    (events context : tensor) :
  all_runs (context_builder_section a n device events context)
    (every_event (fun ev : event => is_interpreter_fit (ev_call ev) = false)).
Proof. about_calls. Qed.

Lemma context_builder_section_order (a : args) (n : Z) (device : string)
    (events context : tensor) :
  args_mode a = Train ->
  triple ordered (context_builder_section a n device events context)
    (fun past (_ : builder) =>
       ordered past /\ builder_fitted_on context (reshape_col events) past)
    (fun past _ => ordered past).
Proof.
  intros Hm past Hp.
  eapply all_runs_mono;
    [|apply (all_runs_and _ _ _
               (builder_is_fitted a n device events context Hm)
               (context_builder_section_no_fit a n device events context))].
  intros tr [e|cb] [Hf Hn]; [apply ordered_keep; assumption|].
  split; [apply ordered_keep; assumption|].
  destruct (Hf cb eq_refl) as (cb0 & ep & b & lr & t & v & Hin).
  exists cb0, ep, b, lr, t, v. apply in_or_app. right. exact Hin.
Qed.

Lemma interpreter_section_order (a : args) (n : Z) (device : string)
    (events context : tensor) (cb : builder) :
  args_mode a = Train ->
  triple
    (fun past => ordered past
                 /\ builder_fitted_on context (reshape_col events) past)
    (interpreter_section a n device events context cb)
    (fun past (_ : interpreter) => ordered past /\ interpreter_fitted past)
    (fun past _ => ordered past).
Proof.
  intros Hm past [Hp Hb].
  assert (Hfit : forall tr i sc it bs v ans,
            fit_order (past ++ tr)
              (Event (Interpreter_fit i context (reshape_col events) sc it bs v)
                     ans : event)).
  { intros tr i sc it bs v ans i' X y sc' it' bs' v' [= <- <- <- <- <- <- <-].
    apply builder_fitted_on_later, Hb. }
  unfold interpreter_section, new_interpreter, fit_interpreter, initial_score,
    save_interpreter, load_interpreter, if_given, lift, do.
  rewrite Hm. unfold ordered.
  run_all;
    rewrite ?each_with_past_app; simpl;
    repeat match goal with
    | |- _ /\ _ => split
    | |- True => exact I
    | |- each_with_past _ [] past => exact Hp
    | |- fit_order _ _ =>
        unfold log; first [apply Hfit | intros ? ? ? ? ? ? ? ?; discriminate]
    | |- interpreter_fitted _ =>
        unfold interpreter_fitted; do 7 eexists; apply in_or_app; right;
        simpl; eauto 10
    end.
Qed.


Lemma ordered_step {R} (p : prog R) :
  all_runs p (every_event (fun ev => is_interpreter_fit (ev_call ev) = false)) ->
  triple ordered p (fun past _ => ordered past) (fun past _ => ordered past).
Proof. apply triple_every, ordered_keep. Qed.

Lemma model_sections_order (a : args) (v : option sequences) :
  args_mode a = Train ->
  triple ordered (model_sections py_int a v)
    (fun past _ => ordered past /\ interpreter_fitted past)
    (fun past _ => ordered past).
Proof.
  intros Hm. unfold model_sections.
  eapply triple_bind; [apply ordered_step; about_calls|]. intros device.
  eapply triple_bind; [apply ordered_step; about_calls|]. intros n.
  eapply triple_bind; [apply ordered_step; about_calls|]. intros cast.
  cbv zeta.
  eapply triple_bind; [apply context_builder_section_order, Hm|]. intros cb.
  eapply triple_bind; [apply interpreter_section_order, Hm|]. intros i.
  intros past Hpast. unfold manual_analysis, automatic_analysis.
  rewrite Hm. simpl. rewrite app_nil_r. exact Hpast.
Qed.

Lemma main_order (a : args) :
  args_mode a = Train ->
  triple (fun past => past = []) (main NO_EVENT py_int a)
    (fun past _ => ordered past /\ interpreter_fitted past)
    (fun past _ => ordered past).
Proof.
  intros Hm. unfold main. rewrite Hm.
  eapply triple_bind; [|intros v; apply model_sections_order, Hm].
  eapply triple_conseq; [| | |apply ordered_step; about_calls]; simpl; auto.
  intros past ->. exact I.
Qed.

(** C1: in train mode the ContextBuilder is fitted before the
    Interpreter.  In every run with [mode = train], wherever the trace
    has a call of [Interpreter.fit] on [(X, y)], a call of
    [ContextBuilder.fit] on the same [(X, y)] has returned before it; and
    a run that completes has fitted the Interpreter. *)
Theorem builder_fitted_before_interpreter (a : args) (w : world) (s : wstate w) :
  args_mode a = Train ->
  let r := exec w (main NO_EVENT py_int a) s in
  (forall before ev after i X y score iterations batch_size verbose,
      trace r = (before ++ ev :: after)%list ->
      ev_call ev = Interpreter_fit i X y score iterations batch_size verbose ->
      builder_fitted_on X y before)
  /\ (forall fin, outcome r = inr fin -> interpreter_fitted (trace r)).
Proof.
  intros Hm r. pose proof (triple_run _ _ _ (main_order a Hm) w s) as H.
  fold r in H. split.
  - intros before ev after i X y sc it bs vb Htr Hev.
    assert (Ho : ordered (trace r)) by (destruct (outcome r); tauto).
    exact (each_with_past_at _ _ _ _ _ Ho Htr _ _ _ _ _ _ _ Hev).
  - intros fin Hfin. rewrite Hfin in H. tauto.
Qed.


(** *** Saving and loading *)

Lemma given (p : string) : p <> "" -> String.eqb p "" = false.
Proof. intros H. destruct (String.eqb_spec p ""); congruence. Qed.











































(** *** Automatic mode *)

(** The calls of a run in automatic mode: everything but rendering and
    fitting.  No call takes a confidence, applies a label or defers a
    point; the threshold only travels to the constructor of the
    Interpreter. *)
Definition automatic_mode_call (c : call) : bool :=
  match c with
  | show_sequences _ _ _ _ _ | ContextBuilder_fit _ _ _ _ _ _ _ _
  | Interpreter_fit _ _ _ _ _ _ _ => false
  | _ => true
  end.

Lemma sequences_section_automatic (a : args) (pre : preprocessor) :
  all_runs (sequences_section a pre)
    (every_event (fun ev : event => automatic_mode_call (ev_call ev) = true)).
Proof. about_calls. Qed.

Definition ends_with_banner (past : list event) : Prop :=
  exists before,
    past = (before ++ [Event (print "SEMI-AUTOMATIC mode") (inr VNone)])%list.

Lemma model_sections_automatic (a : args) (v : option sequences) :
  args_mode a = Automatic ->
  all_runs (model_sections py_int a v)
    (every_event (fun ev : event => automatic_mode_call (ev_call ev) = true)).
Proof.
  intros Hm.
  unfold model_sections, context_builder_section, interpreter_section,
    train_context_builder, fit_interpreter, manual_analysis,
    automatic_analysis.
  rewrite Hm. about_calls.
Qed.

Lemma model_sections_banner (a : args) (v : option sequences) :
  args_mode a = Automatic ->
  triple (fun _ => True) (model_sections py_int a v)
    (fun past _ => ends_with_banner past) (fun _ _ => True).
Proof.
  intros Hm. unfold model_sections.
  do 3 (eapply triple_bind; [apply triple_any|]; intros ?). cbv zeta.
  do 2 (eapply triple_bind; [apply triple_any|]; intros ?).
  unfold manual_analysis, automatic_analysis, do. rewrite Hm.
  intros past _. simpl. intros [e|[]]; simpl; [exact I|].
  exists past. reflexivity.
Qed.

Lemma main_automatic (a : args) :
  args_mode a = Automatic ->
  all_runs (main NO_EVENT py_int a) (fun (tr : list event) o =>
    Forall (fun ev => automatic_mode_call (ev_call ev) = true) tr
    /\ forall fin, o = inr fin -> ends_with_banner tr).
Proof.
  intros Hm. apply all_runs_and.
  - unfold main. rewrite Hm.
    apply every_event_seq; [apply sequences_section_automatic|].
    intros v. apply model_sections_automatic, Hm.
  - assert (H : triple (fun past => past = []) (main NO_EVENT py_int a)
                  (fun past _ => ends_with_banner past) (fun _ _ => True)).
    { unfold main. rewrite Hm.
      eapply triple_bind; [|intros v; apply model_sections_banner, Hm].
      eapply triple_conseq; [| | |apply triple_any]; simpl; auto. }
    eapply all_runs_mono; [|apply (H [] eq_refl)].
    intros tr [e|x]; simpl; [discriminate|]. intros Hb fin _. exact Hb.
Qed.

(** C4: what the script does in automatic mode.  Whatever the
    collaborators answer, a run with [mode = automatic] makes no call
    that fits, predicts or renders, so no confidence is compared with the
    threshold and no label is applied or deferred; a run that completes
    ends by printing the banner of lines 227-228. *)
Theorem automatic_mode_only_prints (a : args) (w : world) (s : wstate w) :
  args_mode a = Automatic ->
  let r := exec w (main NO_EVENT py_int a) s in
  Forall (fun ev => automatic_mode_call (ev_call ev) = true) (trace r)
  /\ forall fin, outcome r = inr fin ->
       exists before,
         trace r =
           (before ++ [Event (print "SEMI-AUTOMATIC mode") (inr VNone)])%list.
Proof.
  intros Hm. exact (all_runs_exec _ _ (main_automatic a Hm) w s).
Qed.

End Properties.

(** ** Runs in the world that follows the design *)

Section SpecRuns.

Import SpecWorld.

Variable NO_EVENT : Z.
Variable py_int : string -> exn + Z.
Variable read_events : bool -> preprocessor -> string -> exn + sequences.

#[local] Abbreviation w := (spec_world read_events).
#[local] Abbreviation event := (event nat nat file_obj).
#[local] Abbreviation prog := (prog nat nat file_obj).

Definition is_interpreter_init (c : call nat nat file_obj) : bool :=
  match c with
  | Interpreter_init _ _ _ _ _ => true
  | _ => false
  end.

Definition not_yet (tr : list event) : Prop :=
  Forall (fun ev => is_interpreter_init (ev_call ev) = false) tr.

(** The run raises; if it came to construct the Interpreter, that call is
    its last, and it raised [EncoderRequired]. *)
Definition refused {R} (r : run R state) : Prop :=
  exists e, outcome r = inl e
    /\ (not_yet (trace r)
        \/ exists before cb features eps min_samples threshold,
             trace r =
               (before ++ [Event (Interpreter_init cb features eps min_samples
                                    threshold)
                             (inl (Failure EncoderRequired))])%list
             /\ not_yet before
             /\ e = Failure EncoderRequired).

Lemma refused_after {R} (tr : list event) (r : run R state) :
  not_yet tr -> refused r ->
  refused (Run (tr ++ trace r) (outcome r) (final_world r)).
Proof.
  intros Htr (e & Ho & H). exists e. split; [exact Ho|]. simpl.
  destruct H as [H|(before & cb & f & eps & ms & th & Heq & Hb & He)].
  - left. apply Forall_app. split; assumption.
  - right. exists (tr ++ before)%list, cb, f, eps, ms, th.
    rewrite Heq, app_assoc. split; [reflexivity|].
    split; [apply Forall_app; split; assumption|exact He].
Qed.

Lemma refused_bind {A R} (p : prog A) (f : A -> prog R) (s : state)
    (Post : A -> state -> Prop) :
  not_yet (trace (exec w p s)) ->
  (forall x, outcome (exec w p s) = inr x -> Post x (final_world (exec w p s))) ->
  (forall x s', Post x s' -> refused (exec w (f x) s')) ->
  refused (exec w (bind p f) s).
Proof.
  intros Hn Hp Hf. rewrite exec_bind.
  destruct (exec w p s) as [tr1 [e|x] s1]; simpl in *.
  - exists e. split; [reflexivity|]. left. exact Hn.
  - apply (refused_after tr1 (exec w (f x) s1)); [exact Hn|].
    apply Hf, Hp. reflexivity.
Qed.

Lemma refused_seq {A R} (p : prog A) (f : A -> prog R) (s : state) :
  all_runs p (every_event (fun ev => is_interpreter_init (ev_call ev) = false)) ->
  (forall x s', refused (exec w (f x) s')) ->
  refused (exec w (bind p f) s).
Proof.
  intros Hp Hf. apply (refused_bind p f s (fun _ _ => True)); auto.
  apply (all_runs_exec _ _ Hp).
Qed.

(** Without training and without a load, the builder that section B
    returns has never been fitted or loaded. *)
Lemma builder_not_ready (a : args) (n : Z) (device : string)
    (events context : tensor) (s : state) :
  args_mode a <> Train -> truthy (args_load_builder a) = false ->
  let r := exec w (context_builder_section a n device events context) s in
  forall cb, outcome r = inr cb ->
    exists e, encoders (final_world r) !! cb = Some e /\ enc_ready e = false.
Proof.
  intros Hm Hl.
  unfold context_builder_section, new_context_builder, train_context_builder,
    save_builder, load_builder, if_given, do.
  assert (Hload : forall (x : nat),
    match args_load_builder a with
    | Some p => if String.eqb p "" then Ret x
                else Vis (ContextBuilder_load p device)
                       (fun a0 => match a0 with inl e => Raise e | inr y => Ret y end)
    | None => Ret x
    end = (Ret x : prog nat)).
  { intros x. unfold truthy in Hl. destruct (args_load_builder a) as [p|];
      [|reflexivity]. destruct (String.eqb p ""); [reflexivity|discriminate]. }
  simpl. unfold move_encoder. simpl. rewrite lookup_insert_eq.
  destruct (device_ok device _) eqn:Hd; simpl; [|discriminate].
  destruct (args_mode a); try congruence; simpl;
    (destruct (args_save_builder a) as [p|];
     [destruct (String.eqb p "")|]; simpl;
     unfold save_encoder; simpl; rewrite ?lookup_insert_eq; simpl;
     rewrite Hload; simpl; intros cb [= <-];
     rewrite lookup_insert_eq; eauto).
Qed.

Lemma interpreter_refused (a : args) (n : Z) (device : string)
    (events context : tensor) (cb : nat) {R} (f : nat -> prog R) (s : state) :
  (exists e, encoders s !! cb = Some e /\ enc_ready e = false) ->
  refused (exec w (bind (interpreter_section a n device events context cb) f) s).
Proof.
  intros (e & He & Hr).
  unfold interpreter_section, new_interpreter, do. simpl.
  unfold Interpreter_new. rewrite He, Hr. simpl.
  exists (Failure EncoderRequired). split; [reflexivity|]. right.
  exists [], cb, n, (args_epsilon a), (args_min_samples a), (args_confidence a).
  repeat split. constructor.
Qed.

(** C3: manual and automatic mode need a fitted or loaded model.  In the
    world that follows the design, a run with [mode = manual] or
    [mode = automatic] and no [--load-builder] raises.  If it raises
    before the Interpreter is constructed, no later call is made; if it
    comes to construct the Interpreter, that call is refused with
    [EncoderRequired], a ModelStateError, and is the last call of the
    run. *)
Theorem unfitted_model_is_refused (a : args) (s : state) :
  args_mode a = Manual \/ args_mode a = Automatic ->
  truthy (args_load_builder a) = false ->
  refused (exec w (main NO_EVENT py_int a) s)
  /\ category_of EncoderRequired = ModelStateError.
Proof.
  intros Hm Hl. split; [|reflexivity].
  assert (Hnt : args_mode a <> Train) by (destruct Hm as [H|H]; congruence).
  assert (Hns : args_mode a <> Sequence) by (destruct Hm as [H|H]; congruence).
  unfold main. apply refused_seq; [about_calls|]. intros v s1.
  assert (Hmodel : refused (exec w (model_sections py_int a v) s1)).
  { unfold model_sections.
    apply refused_seq; [about_calls|]. intros device s2.
    apply refused_seq; [about_calls|]. intros n s3.
    apply refused_seq; [about_calls|]. intros cast s4. cbv zeta.
    apply (refused_bind _ _ _
             (fun cb s' => exists e, encoders s' !! cb = Some e
                                     /\ enc_ready e = false)).
    - apply (all_runs_exec _ (every_event _)). about_calls.
    - apply builder_not_ready; assumption.
    - intros cb s5 H. apply interpreter_refused, H. }
  destruct (args_mode a); [congruence|exact Hmodel..].
Qed.

End SpecRuns.

(** ** The properties on the concrete runs *)

Section Instances.

Import SpecWorld Demo.

(** Training on the three events: the Interpreter gets fitted, after the
    builder. *)
Lemma builder_fitted_before_interpreter_witness :
  args_mode (on_events Train) = Train
  /\ interpreter_fitted (trace (run_of (on_events Train) fresh)).
Proof.
  split; [reflexivity|].
  apply (proj2 (builder_fitted_before_interpreter no_event decimal_int
                  (on_events Train) world fresh eq_refl)
           (Final 0%nat 1%nat)).
  vm_compute. reflexivity.
Defined.

(** [deepcase.py sequence --csv events.csv --length 2] renders and exits. *)
Lemma sequence_mode_involves_no_model_witness :
  args_mode (on_events Sequence) = Sequence
  /\ outcome (run_of (on_events Sequence) fresh) = inl (SystemExit None).
Proof.
  split; [reflexivity|].
  apply (proj2 (proj2 (sequence_mode_involves_no_model no_event decimal_int
                         (on_events Sequence) world fresh eq_refl))
           eq_refl data eq_refl).
Defined.

(** [deepcase.py manual --csv events.csv --length 2], nothing loaded. *)
Lemma unfitted_model_is_refused_witness :
  refused (run_of (on_events Manual) fresh).
Proof.
  apply (unfitted_model_is_refused no_event decimal_int read_events
           (on_events Manual) fresh (or_introl eq_refl) eq_refl).
Defined.

(** Automatic mode with a loaded builder and interpreter: the run ends with
    the banner. *)
Lemma automatic_mode_only_prints_witness :
  exists before,
    trace (run_of automatic_args trained)
    = (before ++ [Event (print "SEMI-AUTOMATIC mode") (inr VNone)])%list.
Proof.
  apply (proj2 (automatic_mode_only_prints no_event decimal_int automatic_args
                  world trained eq_refl)
           (Final 1%nat 3%nat)).
  vm_compute. reflexivity.
Defined.

(** [deepcase.py train --csv events.csv --length 2]: the eight settings
    that are not supplied have their defaults, the run hands them to the
    calls it makes, and no value of [delta] changes the run. *)
Lemma defaults_reach_the_core_witness :
  (args_timeout (on_events Train) = PyInt 86400
   /\ args_hidden (on_events Train) = 128
   /\ args_delta (on_events Train) = 0.1%float
   /\ args_confidence (on_events Train) = 0.2%float
   /\ args_epsilon (on_events Train) = 0.1%float
   /\ args_min_samples (on_events Train) = 5
   /\ args_epochs (on_events Train) = 10
   /\ args_batch (on_events Train) = 128)
  /\ Forall (fun ev => consumes (on_events Train) (ev_call ev))
       (trace (run_of (on_events Train) fresh))
  /\ (occurs constructs_builder (trace (run_of (on_events Train) fresh)) = true
      /\ occurs constructs_interpreter
           (trace (run_of (on_events Train) fresh)) = true
      /\ occurs fits_builder (trace (run_of (on_events Train) fresh)) = true
      /\ occurs calls_preprocessor
           (trace (run_of (on_events Train) fresh)) = true)
  /\ (forall d, run_of (set_delta d (on_events Train)) fresh
                = run_of (on_events Train) fresh).
Proof.
  destruct (defaults_reach_the_core no_event decimal_int half_float
              [Positional "train"; Given Csv "events.csv"; Given Length "2"]
              (on_events Train) world fresh eq_refl)
    as ((_ & Htimeout & Hhidden & Hdelta & Hconfidence & Hepsilon
           & Hmin_samples & Hepochs & Hbatch) & Hcalls & Hmade & Hsame).
  assert (Hn : forall o, o <> Csv -> o <> Length ->
            ~ supplied o [Positional "train"; Given Csv "events.csv";
                          Given Length "2"]).
  { intros o Hc Hl (v & [H|[H|[H|[]]]]); congruence. }
  split; [|split; [exact Hcalls|split; [|exact Hsame]]].
  - exact (conj (Htimeout (Hn Timeout ltac:(discriminate) ltac:(discriminate)))
          (conj (Hhidden (Hn Hidden ltac:(discriminate) ltac:(discriminate)))
          (conj (Hdelta (Hn Delta ltac:(discriminate) ltac:(discriminate)))
          (conj (Hconfidence
                   (Hn Confidence ltac:(discriminate) ltac:(discriminate)))
          (conj (Hepsilon (Hn Epsilon ltac:(discriminate) ltac:(discriminate)))
          (conj (Hmin_samples
                   (Hn MinSamples ltac:(discriminate) ltac:(discriminate)))
          (conj (Hepochs (Hn Epochs ltac:(discriminate) ltac:(discriminate)))
                (Hbatch (Hn Batch ltac:(discriminate) ltac:(discriminate)))
          ))))))).
  - destruct (Hmade (Final 0%nat 1%nat) eq_refl) as (H1 & H2 & H3 & H4).
    exact (conj H1 (conj H2 (conj (H3 eq_refl) (H4 eq_refl)))).
Defined.

(** The rendering call of the sequence-mode run above. *)
Lemma show_sequences_verbatim_witness :
  exists d, bound_sequences (trace (run_of (on_events Sequence) fresh)) = Some d
    /\ context = s_context d /\ events = s_events d /\ None = s_label d
    /\ mapping = s_mapping d /\ no_event = no_event.
Proof.
  apply (show_sequences_verbatim no_event decimal_int (on_events Sequence)
           world fresh context events None mapping no_event (inr VNone)).
  right. left. reflexivity.
Defined.

(** The [Interpreter.fit] call of the training run: three targets, three
    scores of -4. *)
Lemma initial_score_is_minus_four_witness :
  exists (d : sequences) (device : string) (ev : tensor)
         (n : nat) (rest : list nat),
    bound_sequences (firstn 8 (trace (run_of (on_events Train) fresh)))
    = Some d
    /\ In (Event (tensor_to (s_events d) device) (inr (VTensor ev)))
         (firstn 8 (trace (run_of (on_events Train) fresh)))
    /\ reshape_col events = reshape_col ev
    /\ t_shape ev = n :: rest
    /\ t_shape (tensor_sub (zeros_col 3 "cpu") 4) = [n; 1%nat]
    /\ t_data (tensor_sub (zeros_col 3 "cpu") 4) = repeat (SFloat (-4)%float) n
    /\ (rest = [] -> t_shape (reshape_col events) = [n; 1%nat]).
Proof.
  apply (proj1 (initial_score_is_minus_four no_event decimal_int
                  (on_events Train) world fresh)
           (firstn 8 (trace (run_of (on_events Train) fresh)))
           (skipn 9 (trace (run_of (on_events Train) fresh)))
           1%nat context (reshape_col events)
           (tensor_sub (zeros_col 3 "cpu") 4) 100 1024 true (inr VNone)).
  vm_compute. reflexivity.
Defined.

(** [--csv events.csv --txt events.txt]: nothing happens but the error. *)
Lemma csv_txt_exclusive_witness :
  run_of both_inputs fresh
  = Run [] (inl (ValueError "Please specify EITHER --csv OR --txt.")) fresh.
Proof.
  apply (csv_txt_exclusive no_event decimal_int both_inputs world fresh
           "events.csv" "events.txt" eq_refl eq_refl).
Defined.


(** The ContextBuilder of the training run is sized by the two event types
    of the mapping. *)
Lemma events_size_the_model_witness :
  2 = 2
  /\ exists d, bound_sequences (trace (run_of (on_events Train) fresh)) = Some d
               /\ 2 = Z.of_nat (size (s_mapping d)).
Proof.
  apply (events_size_the_model no_event decimal_int (on_events Train) world fresh
           (Event (ContextBuilder_init 2 2 128 1 2 false false)
              (inr (VBuilder 0%nat)))).
  vm_compute. do 4 right. left. reflexivity.
Defined.

End Instances.

(** ** Further properties of the script *)

Section Further.

Context {builder interpreter file : Type}.
Variable NO_EVENT : Z.
Variable py_int : string -> exn + Z.
#[local] Abbreviation call := (call builder interpreter file).
#[local] Abbreviation prog := (prog builder interpreter file).
#[local] Abbreviation event := (event builder interpreter file).
#[local] Abbreviation world := (world builder interpreter file).

(** *** An option that is read and dropped *)

(** [--delta] reaches no line of the script after the parser: two
    namespaces that differ in [delta] only give the same run. *)
Theorem delta_is_ignored (a : args) (d : float) (w : world) (s : wstate w) :
  exec w (main NO_EVENT py_int (set_delta d a)) s
  = exec w (main NO_EVENT py_int a) s.
Proof. destruct a. reflexivity. Qed.

(** *** What each mode may call *)

(** The calls the script makes in one mode only. *)
Definition mode_allows (a : args) (c : call) : Prop :=
  match c with
  | show_sequences _ _ _ _ _ => args_mode a = Sequence
  | ContextBuilder_fit _ _ _ _ _ _ _ _ | Interpreter_fit _ _ _ _ _ _ _ =>
      args_mode a = Train
  | print _ => args_mode a = Automatic
  | _ => True
  end.

Lemma main_modes (a : args) :
  all_runs (main NO_EVENT py_int a)
    (every_event (fun ev : event => mode_allows a (ev_call ev))).
Proof.
  unfold main, model_sections, context_builder_section, interpreter_section,
    train_context_builder, fit_interpreter, manual_analysis, automatic_analysis.
  unfold mode_allows. destruct (args_mode a); about_calls.
Qed.

(** Rendering happens in sequence mode only, fitting in train mode only,
    and the banner is printed in automatic mode only. *)
Theorem calls_follow_the_mode (a : args) (w : world) (s : wstate w) :
  Forall (fun ev => mode_allows a (ev_call ev))
    (trace (exec w (main NO_EVENT py_int a) s)).
Proof. exact (all_runs_exec _ _ (main_modes a) w s). Qed.

(** *** Fixed settings of the training calls *)

(** The arguments that the script writes as literals. *)
Definition literal_settings (c : call) : Prop :=
  match c with
  | ContextBuilder_init _ _ _ num_layers _ bidirectional lstm =>
      num_layers = 1 /\ bidirectional = false /\ lstm = false
  | ContextBuilder_fit _ _ _ _ _ learning_rate teach_ratio verbose =>
      learning_rate = 0.01%float /\ teach_ratio = 0.5%float /\ verbose = true
  | Interpreter_fit _ _ _ _ iterations batch_size verbose =>
      iterations = 100 /\ batch_size = 1024 /\ verbose = true
  | _ => True
  end.

Lemma main_literals (a : args) :
  all_runs (main NO_EVENT py_int a)
    (every_event (fun ev : event => literal_settings (ev_call ev))).
Proof. about_calls. Qed.

(** [--epochs] and [--batch] reach [ContextBuilder.fit] only: whatever
    the command line, [Interpreter.fit] runs 100 iterations in batches of
    1024, the builder has one layer, is not bidirectional and is no LSTM,
    and is fitted with learning rate 0.01 and teach ratio 0.5. *)
Theorem training_settings_are_fixed (a : args) (w : world) (s : wstate w) :
  Forall (fun ev => literal_settings (ev_call ev))
    (trace (exec w (main NO_EVENT py_int a) s)).
Proof. exact (all_runs_exec _ _ (main_literals a) w s). Qed.

(** *** Files *)

(** [files_closed opened tr]: with [opened] the file that is open when [tr]
    starts, [tr] opens a file only when none is open, saves to and loads
    from the open file only, closes the open file only, and leaves none
    open. *)
Fixpoint files_closed (opened : option file) (tr : list event) : Prop :=
  match tr with
  | [] => opened = None
  | ev :: tr' =>
      match ev_call ev with
      | open_file _ _ =>
          opened = None
          /\ match ev_answer ev with
             | inr (VFile f) => files_closed (Some f) tr'
             | _ => files_closed None tr'
             end
      | torch_save _ f | torch_load f =>
          opened = Some f /\ files_closed opened tr'
      | close_file f => opened = Some f /\ files_closed None tr'
      | _ => files_closed opened tr'
      end
  end.

Definition is_file_call (c : call) : bool :=
  match c with
  | open_file _ _ | close_file _ | torch_save _ _ | torch_load _ => true
  | _ => false
  end.

Lemma files_closed_app (opened : option file) (tr tr' : list event) :
  files_closed opened tr -> files_closed None tr' ->
  files_closed opened (tr ++ tr').
Proof.
  revert opened. induction tr as [|ev tr IH]; simpl; intros opened H H'.
  - subst. exact H'.
  - destruct (ev_call ev); auto; try (destruct H as [H1 H2]; split; auto).
    destruct (ev_answer ev) as [e|[]]; auto.
Qed.

Lemma files_closed_other (tr : list event) :
  Forall (fun ev => is_file_call (ev_call ev) = false) tr ->
  files_closed None tr.
Proof.
  induction 1 as [|ev tr Hev _ IH]; simpl; [reflexivity|].
  destruct (ev_call ev); auto; discriminate.
Qed.

Lemma sequences_section_closes (a : args) (pre : preprocessor) :
  all_runs (sequences_section a pre)
    (fun (tr : list event) _ => files_closed None tr).
Proof.
  unfold sequences_section, load_files, save_sequences, load_sequences,
    with_open, if_given, name, do.
  run_all; repeat split.
Qed.

Lemma main_closes (a : args) :
  all_runs (main NO_EVENT py_int a)
    (fun (tr : list event) _ => files_closed None tr).
Proof.
  unfold main. apply all_runs_bind.
  eapply all_runs_mono; [|apply sequences_section_closes].
  intros tr [e|v] Htr; simpl; [exact Htr|].
  assert (H : all_runs
            (match args_mode a with
             | Sequence => sequence_mode NO_EVENT v
             | _ => model_sections py_int a v
             end)
            (every_event (fun ev : event => is_file_call (ev_call ev) = false))).
  { destruct (args_mode a); about_calls. }
  eapply all_runs_mono; [|apply H].
  intros tr' o' Htr'. apply files_closed_app; [exact Htr|].
  apply files_closed_other, Htr'.
Qed.

(** Every file the script opens is closed again, whether the body of the
    [with] returns or raises; [torch.save] and [torch.load] only touch the
    file that is open, and no two files are open at once. *)
Theorem every_file_is_closed (a : args) (w : world) (s : wstate w) :
  files_closed None (trace (exec w (main NO_EVENT py_int a) s)).
Proof. exact (all_runs_exec _ _ (main_closes a) w s). Qed.

(** *** The device *)

(** What [torch.cuda.is_available()] answered, if it was asked. *)
Definition cuda_answer (tr : list event) : option bool :=
  fold_left (fun v ev =>
    match ev_answer ev with inr (VBool b) => Some b | _ => v end) tr None.

(** Lines 127-128: the device after ["auto"] is resolved. *)
Definition resolved_device (a : args) (tr : list event) : string :=
  if String.eqb (args_device a) "auto" then
    match cuda_answer tr with
    | Some true => "cuda"
    | _ => "cpu"
    end
  else args_device a.

(** Every place a call names a device. *)
Definition on_device (d : string) (c : call) : Prop :=
  match c with
  | tensor_to _ device | ContextBuilder_to _ device
  | ContextBuilder_load _ device => device = d
  | Interpreter_fit _ _ _ score _ _ _ => t_device score = d
  | _ => True
  end.

Definition asks_cuda (c : call) : bool :=
  match c with
  | cuda_is_available => true
  | _ => false
  end.

Definition answers_bool (ev : event) : bool :=
  match ev_answer ev with
  | inr (VBool _) => true
  | _ => false
  end.

Lemma fold_bool_same (tr : list event) (v : option bool) :
  Forall (fun ev => answers_bool ev = false) tr ->
  fold_left (fun v (ev : event) =>
    match ev_answer ev with inr (VBool b) => Some b | _ => v end) tr v = v.
Proof.
  intros H. revert v. induction H as [|ev tr Hev _ IH]; simpl; intros v;
    [reflexivity|].
  rewrite IH. unfold answers_bool in Hev.
  destruct (ev_answer ev) as [e|[]]; try reflexivity; discriminate.
Qed.

Lemma cuda_answer_app (tr tr' : list event) :
  Forall (fun ev => answers_bool ev = false) tr' ->
  cuda_answer (tr ++ tr') = cuda_answer tr.
Proof.
  intros H. unfold cuda_answer. rewrite fold_left_app. apply fold_bool_same, H.
Qed.

Lemma cuda_answer_before (tr tr' : list event) :
  Forall (fun ev => answers_bool ev = false) tr ->
  cuda_answer (tr ++ tr') = cuda_answer tr'.
Proof.
  intros H. unfold cuda_answer. rewrite fold_left_app, (fold_bool_same _ _ H).
  reflexivity.
Qed.

(** The device that [auto_device] returns is the resolved one, and it asks
    about CUDA only for ["auto"]. *)
Lemma auto_device_resolves (a : args) :
  all_runs (auto_device a) (fun (tr : list event) o =>
    Forall (fun ev => on_device (resolved_device a tr) (ev_call ev)
                      /\ (asks_cuda (ev_call ev) = true ->
                          args_device a = "auto")) tr
    /\ forall d, o = inr d -> d = resolved_device a tr).
Proof.
  unfold auto_device, resolved_device, do.
  destruct (String.eqb_spec (args_device a) "auto") as [Heq|Hne]; simpl.
  - intros [e|[]]; simpl; (split; [repeat constructor; auto|]);
      intros d [=]; subst; reflexivity.
  - split; [constructor|]. intros d [=]. subst. reflexivity.
Qed.

Lemma after_device (a : args) (v : option sequences) (d : string) :
  all_runs
    (n_events <- auto_events py_int a v ;;
     cast <- cast_tensors d v ;;
     let events := fst cast in
     let context := snd cast in
     cb <- context_builder_section a n_events d events context ;;
     i <- interpreter_section a n_events d events context cb ;;
     manual_analysis a ;;
     automatic_analysis a ;;
     Ret (Final cb i))%prog
    (every_event (fun ev : event =>
       on_device d (ev_call ev) /\ asks_cuda (ev_call ev) = false
       /\ answers_bool ev = false)).
Proof.
  calls ltac:(idtac;
    lazymatch goal with
    | |- all_runs (fit_interpreter _ _ _ _ _) _ =>
        unfold fit_interpreter, initial_score, shape0, lift, do;
        destruct (args_mode a); try apply Forall_nil_2;
        destruct (t_shape _); simpl; try apply Forall_nil_2;
        intros [?|[]]; repeat constructor
    end)
    ltac:(intros [?|?]; repeat split; reflexivity).
Qed.

Lemma model_sections_device (a : args) (v : option sequences) :
  all_runs (model_sections py_int a v) (fun (tr : list event) _ =>
    Forall (fun ev => on_device (resolved_device a tr) (ev_call ev)
                      /\ (asks_cuda (ev_call ev) = true ->
                          args_device a = "auto")) tr).
Proof.
  unfold model_sections. apply all_runs_bind.
  eapply all_runs_mono; [|apply auto_device_resolves].
  intros tr [e|d] [Htr Hd]; simpl; [exact Htr|].
  eapply all_runs_mono; [|apply after_device].
  intros tr' o' Htr'. rewrite (Hd d eq_refl) in Htr'.
  assert (Hsame : resolved_device a (tr ++ tr') = resolved_device a tr).
  { unfold resolved_device. rewrite cuda_answer_app; [reflexivity|].
    eapply Forall_impl; [exact Htr'|]. simpl. tauto. }
  rewrite Hsame. apply Forall_app. split; [exact Htr|].
  eapply Forall_impl; [exact Htr'|]. simpl.
  intros ev (H1 & H2 & _). split; [exact H1|]. rewrite H2. discriminate.
Qed.

Lemma before_device (a : args) (pre : preprocessor) :
  all_runs (sequences_section a pre)
    (every_event (fun ev : event =>
       (forall d, on_device d (ev_call ev)) /\ asks_cuda (ev_call ev) = false
       /\ answers_bool ev = false)).
Proof. calls ltac:(fail) ltac:(intros [?|?]; repeat split; reflexivity). Qed.

Lemma main_device (a : args) :
  all_runs (main NO_EVENT py_int a) (fun (tr : list event) _ =>
    Forall (fun ev => on_device (resolved_device a tr) (ev_call ev)
                      /\ (asks_cuda (ev_call ev) = true ->
                          args_device a = "auto")) tr).
Proof.
  unfold main. apply all_runs_bind.
  eapply all_runs_mono; [|apply before_device].
  intros tr o Htr.
  assert (Hpre : forall d,
    Forall (fun ev : event => on_device d (ev_call ev)
                      /\ (asks_cuda (ev_call ev) = true ->
                          args_device a = "auto")) tr).
  { intros d. eapply Forall_impl; [exact Htr|]. simpl.
    intros ev (H1 & H2 & _). split; [apply H1|]. rewrite H2. discriminate. }
  destruct o as [e|v]; simpl; [apply Hpre|].
  assert (Hquiet : Forall (fun ev : event => answers_bool ev = false) tr).
  { eapply Forall_impl; [exact Htr|]. simpl. tauto. }
  destruct (args_mode a).
  1:{ eapply (all_runs_mono _ (every_event (fun ev : event =>
        (forall d, on_device d (ev_call ev)) /\ asks_cuda (ev_call ev) = false)));
        [|calls ltac:(fail) ltac:(intros [?|?]; repeat split; reflexivity)].
      intros tr' o' Htr'. apply Forall_app. split; [apply Hpre|].
      eapply Forall_impl; [exact Htr'|]. simpl.
      intros ev (H1 & H2). split; [apply H1|]. rewrite H2. discriminate. }
  all: eapply all_runs_mono; [|apply model_sections_device].
  all: intros tr' o' Htr'; unfold resolved_device in *.
  all: rewrite (cuda_answer_before _ _ Hquiet).
  all: apply Forall_app; split; [apply Hpre|exact Htr'].
Qed.

(** Every call that names a device names the same one: [args.device] as
    given, or for ["auto"] "cuda" when [torch.cuda.is_available()]
    answered true and "cpu" otherwise; so do the initial scores.  CUDA is
    asked about only when the device is ["auto"]. *)
Theorem one_device_per_run (a : args) (w : world) (s : wstate w) :
  let r := exec w (main NO_EVENT py_int a) s in
  Forall (fun ev => on_device (resolved_device a (trace r)) (ev_call ev)
                    /\ (asks_cuda (ev_call ev) = true ->
                        args_device a = "auto")) (trace r).
Proof. exact (all_runs_exec _ _ (main_device a) w s). Qed.

(** *** Runs without input *)

(** Calls that touch neither the data nor a model. *)
Definition is_setup_call (c : call) : bool :=
  match c with
  | open_file _ _ | close_file _ | cuda_is_available => true
  | _ => false
  end.

(** The exceptions the script raises itself when it has no data. *)
Definition own_error (a : args) (e : exn) : Prop :=
  e = ValueError "Please specify EITHER --csv OR --txt."
  \/ (exists x, e = NameError x)
  \/ py_int (args_events a) = inl e.

Lemma sequences_section_without_input (a : args) (pre : preprocessor) :
  truthy (args_csv a) = false -> truthy (args_txt a) = false ->
  truthy (args_load_sequences a) = false ->
  all_runs (sequences_section a pre) (fun (tr : list event) o =>
    Forall (fun ev => is_setup_call (ev_call ev) = true) tr
    /\ match o with
       | inr v => v = None
       | inl e => all_returned tr = true -> own_error a e
       end).
Proof.
  intros Hc Ht Hl.
  unfold sequences_section, load_files, load_sequences, save_sequences,
    with_open, if_given, name, do, own_error, truthy in *.
  destruct (args_csv a) as [p|];
    [destruct (String.eqb p ""); [|discriminate Hc]|];
    (destruct (args_txt a) as [q|];
      [destruct (String.eqb q ""); [|discriminate Ht]|]);
    (destruct (args_load_sequences a) as [l|];
      [destruct (String.eqb l ""); [|discriminate Hl]|]);
    run_all;
    (split; [repeat constructor
            |first [reflexivity | discriminate | intros _; eauto 6]]).
Qed.

Lemma rest_without_input (a : args) :
  all_runs
    (match args_mode a with
     | Sequence => sequence_mode NO_EVENT None
     | _ => model_sections py_int a None
     end)
    (fun (tr : list event) (o : exn + final builder interpreter) =>
       Forall (fun ev => is_setup_call (ev_call ev) = true) tr
       /\ exists e, o = inl e /\ (all_returned tr = true -> own_error a e)).
Proof.
  unfold sequence_mode, model_sections, auto_device, auto_events, cast_tensors,
    name, lift, do, own_error.
  destruct (py_int (args_events a)) as [e|n] eqn:Hint;
    run_all; (split; [repeat constructor|]);
    eexists; (split; [reflexivity|]);
    first [discriminate | intros _; eauto 6].
Qed.

Lemma main_without_input (a : args) :
  truthy (args_csv a) = false -> truthy (args_txt a) = false ->
  truthy (args_load_sequences a) = false ->
  all_runs (main NO_EVENT py_int a)
    (fun (tr : list event) o =>
       Forall (fun ev => is_setup_call (ev_call ev) = true) tr
       /\ exists e, o = inl e /\ (all_returned tr = true -> own_error a e)).
Proof.
  intros Hc Ht Hl.
  unfold main. apply all_runs_bind.
  eapply all_runs_mono; [|apply (sequences_section_without_input a _ Hc Ht Hl)].
  intros tr [e|v] [Htr Ho]; simpl; [split; eauto|]. subst v.
  eapply all_runs_mono; [|apply rest_without_input].
  intros tr' o' (Htr' & e & -> & He). split.
  - apply Forall_app. split; assumption.
  - exists e. split; [reflexivity|]. rewrite all_returned_app.
    intros H. apply andb_true_iff in H. tauto.
Qed.

(** Without [--csv], [--txt] and [--load-sequences] the four names are
    never bound: the run opens and closes at most the file to save to and
    asks about CUDA, calls no preprocessor, no rendering and no model, and
    ends with an exception; when every call returned, that exception is
    the script's own ([NameError], or the [ValueError] of lines 85-87) or
    the one [int(args.events)] raised. *)
Theorem no_input_no_model (a : args) (w : world) (s : wstate w) :
  truthy (args_csv a) = false -> truthy (args_txt a) = false ->
  truthy (args_load_sequences a) = false ->
  let r := exec w (main NO_EVENT py_int a) s in
  Forall (fun ev => is_setup_call (ev_call ev) = true) (trace r)
  /\ exists e, outcome r = inl e
       /\ (all_returned (trace r) = true -> own_error a e).
Proof.
  intros Hc Ht Hl.
  exact (all_runs_exec _ _ (main_without_input a Hc Ht Hl) w s).
Qed.

(** With no data and [--save-sequences], the file is opened for writing
    and closed, and nothing else happens: [torch.save] is not reached, the
    run ends with [NameError] for [events] (or with what [open] or the
    closing raised). *)
Theorem save_without_data (a : args) (w : world) (s : wstate w) (ps : string) :
  truthy (args_csv a) = false -> truthy (args_txt a) = false ->
  is_not_none (args_csv a) && is_not_none (args_txt a) = false ->
  args_save_sequences a = Some ps -> ps <> "" ->
  let r := exec w (main NO_EVENT py_int a) s in
  (exists e,
      trace r = [Event (open_file ps "wb") (inl e)] /\ outcome r = inl e)
  \/ (exists f ans,
        trace r = [Event (open_file ps "wb") (inr (VFile f));
                   Event (close_file f) ans]
        /\ outcome r =
             inl (match ans with inl e => e | inr _ => NameError "events" end)).
Proof.
  intros Hc Ht Hb Hs Hps.
  apply (all_runs_exec (main NO_EVENT py_int a)
    (fun tr o =>
       (exists e, tr = [Event (open_file ps "wb") (inl e)] /\ o = inl e)
       \/ (exists f ans,
             tr = [Event (open_file ps "wb") (inr (VFile f));
                   Event (close_file f) ans]
             /\ o = inl (match ans with
                         | inl e => e
                         | inr _ => NameError "events"
                         end)))).
  unfold main, sequences_section, load_files, save_sequences, with_open,
    if_given, name, do, truthy in *.
  rewrite Hb, Hs, (given _ Hps).
  destruct (args_csv a) as [p|];
    [destruct (String.eqb p ""); [|discriminate Hc]|];
    (destruct (args_txt a) as [q|];
      [destruct (String.eqb q ""); [|discriminate Ht]|]);
    simpl;
    (intros [e|f]; simpl; [left; eauto|]);
    intros [e|[]]; simpl; right; exists f; eexists; split; reflexivity.
Qed.

Definition is_tensor_to (c : call) : bool :=
  match c with
  | tensor_to _ _ => true
  | _ => false
  end.

(** Neither a model call nor a move of a tensor to the device. *)
Definition before_the_model (ev : event) : Prop :=
  is_model_call (ev_call ev) = false /\ is_tensor_to (ev_call ev) = false.

Lemma sequences_section_before_the_model (a : args) (pre : preprocessor) :
  all_runs (sequences_section a pre) (every_event before_the_model).
Proof. calls ltac:(fail) ltac:(intros ?; split; reflexivity). Qed.

Lemma model_sections_bad_events (a : args) (v : option sequences) (e : exn) :
  String.eqb (args_events a) "auto" = false ->
  py_int (args_events a) = inl e ->
  all_runs (model_sections py_int a v)
    (fun (tr : list event) o =>
       Forall before_the_model tr
       /\ exists e', o = inl e' /\ (all_returned tr = true -> e' = e)).
Proof.
  intros Hev Hint.
  unfold model_sections, auto_device, auto_events, lift, do.
  rewrite Hev, Hint.
  run_all; (split; [repeat constructor|]);
    eexists; (split; [reflexivity|]); first [discriminate | reflexivity].
Qed.

(** An [--events] value that [int] rejects stops the script before any
    tensor is moved or any model is constructed; when the data was bound
    and every call returned, the run ends with the exception of [int]. *)
Theorem bad_events_stops_early (a : args) (e : exn) (w : world) (s : wstate w) :
  args_mode a <> Sequence ->
  String.eqb (args_events a) "auto" = false ->
  py_int (args_events a) = inl e ->
  let r := exec w (main NO_EVENT py_int a) s in
  Forall before_the_model (trace r)
  /\ exists e', outcome r = inl e'
       /\ (all_returned (trace r) = true ->
           bound_sequences (trace r) <> None -> e' = e).
Proof.
  intros Hm Hev Hint.
  apply (all_runs_exec (main NO_EVENT py_int a)
    (fun tr o => Forall before_the_model tr
       /\ exists e', o = inl e'
            /\ (all_returned tr = true -> bound_sequences tr <> None -> e' = e))).
  unfold main. apply all_runs_bind.
  eapply all_runs_mono;
    [|apply (all_runs_and _ _ _ (sequences_section_before_the_model a _)
               (sequences_section_binds a _))].
  intros tr [e0|v] [Htr Hb]; simpl.
  { split; [exact Htr|]. exists e0. split; [reflexivity|].
    intros Hr Hn. destruct (Hn (Hb Hr)). }
  destruct (args_mode a); [congruence|..].
  all: eapply all_runs_mono; [|apply (model_sections_bad_events a v e Hev Hint)].
  all: intros tr' o' (Htr' & e' & -> & He').
  all: split; [apply Forall_app; split; assumption|].
  all: exists e'; split; [reflexivity|]; rewrite all_returned_app.
  all: intros H _; apply andb_true_iff in H; tauto.
Qed.

(** *** Which object a call is made on *)

(** A call on a builder or an interpreter is made on the one most recently
    returned to the script. *)
Definition uses_latest (past : list event) (ev : event) : Prop :=
  match ev_call ev with
  | ContextBuilder_to cb _ | ContextBuilder_fit cb _ _ _ _ _ _ _
  | ContextBuilder_save cb _ | Interpreter_init cb _ _ _ _
  | Interpreter_load _ cb => latest_builder past = Some cb
  | Interpreter_fit i _ _ _ _ _ _ | Interpreter_save i _ =>
      latest_interpreter past = Some i
  | _ => True
  end.

Definition follows_latest (past : list event) : Prop :=
  each_with_past uses_latest [] past.

Lemma follows_latest_keep (past tr : list event) :
  follows_latest past ->
  Forall (fun ev => is_model_call (ev_call ev) = false) tr ->
  follows_latest (past ++ tr).
Proof.
  intros Hp Htr. apply each_with_past_app. split; [exact Hp|].
  eapply each_with_past_every; [|exact Htr].
  intros before ev Hev. unfold uses_latest. simpl in Hev.
  destruct (ev_call ev); trivial; discriminate.
Qed.

Lemma follows_latest_step {R} (p : prog R) :
  all_runs p (every_event (fun ev => is_model_call (ev_call ev) = false)) ->
  triple follows_latest p (fun past _ => follows_latest past)
    (fun past _ => follows_latest past).
Proof. apply triple_every, follows_latest_keep. Qed.

Ltac latest_leaf Hp :=
  unfold follows_latest; rewrite ?each_with_past_app; simpl;
  unfold uses_latest, latest_builder, latest_interpreter in *; simpl;
  rewrite ?fold_left_app; simpl;
  repeat match goal with
  | |- _ /\ _ => split
  | |- True => exact I
  | |- each_with_past _ [] _ => exact Hp
  | |- _ = _ => first [reflexivity | assumption]
  end.

Lemma context_builder_section_latest (a : args) (n : Z) (device : string)
    (events context : tensor) :
  triple follows_latest (context_builder_section a n device events context)
    (fun past cb => follows_latest past /\ latest_builder past = Some cb)
    (fun past _ => follows_latest past).
Proof.
  intros past Hp.
  unfold context_builder_section, new_context_builder, train_context_builder,
    save_builder, load_builder, if_given, do.
  run_all; latest_leaf Hp.
Qed.

Lemma interpreter_section_latest (a : args) (n : Z) (device : string)
    (events context : tensor) (cb : builder) :
  triple (fun past => follows_latest past /\ latest_builder past = Some cb)
    (interpreter_section a n device events context cb)
    (fun past i => follows_latest past /\ latest_builder past = Some cb
                   /\ latest_interpreter past = Some i)
    (fun past _ => follows_latest past).
Proof.
  intros past [Hp Hb].
  unfold interpreter_section, new_interpreter, fit_interpreter, initial_score,
    save_interpreter, load_interpreter, if_given, lift, do.
  run_all; latest_leaf Hp.
Qed.

Lemma model_sections_latest (a : args) (v : option sequences) :
  triple follows_latest (model_sections py_int a v)
    (fun past fin =>
       follows_latest past
       /\ latest_builder past = Some (context_builder fin)
       /\ latest_interpreter past = Some (the_interpreter fin))
    (fun past _ => follows_latest past).
Proof.
  unfold model_sections.
  do 3 (eapply triple_bind; [apply follows_latest_step; about_calls|]; intros ?).
  cbv zeta.
  eapply triple_bind; [apply context_builder_section_latest|]. intros cb.
  eapply triple_bind; [apply interpreter_section_latest|]. intros i.
  intros past (Hp & Hb & Hi).
  unfold manual_analysis, automatic_analysis, do.
  run_all; latest_leaf Hp.
Qed.

Lemma main_latest (a : args) :
  triple (fun past => past = []) (main NO_EVENT py_int a)
    (fun past fin =>
       follows_latest past
       /\ latest_builder past = Some (context_builder fin)
       /\ latest_interpreter past = Some (the_interpreter fin))
    (fun past _ => follows_latest past).
Proof.
  unfold main.
  apply (triple_bind _ _ (fun past _ => follows_latest past)).
  - eapply triple_conseq; [| | |apply follows_latest_step; about_calls];
      simpl; auto.
    intros past ->. exact I.
  - intros v. destruct (args_mode a); [|apply model_sections_latest..].
    (* [sequence_mode] renders and never returns *)
    intros past Hp. unfold sequence_mode, name, do.
    run_all; latest_leaf Hp.
Qed.

(** Every call on a builder or an interpreter is made on the object the
    script received last: once [ContextBuilder.load] has returned, the
    Interpreter is constructed and loaded on the loaded builder, not on the
    one that was constructed and trained; and the two names the script
    ends with are the objects received last. *)
Theorem calls_use_the_latest_object (a : args) (w : world) (s : wstate w) :
  let r := exec w (main NO_EVENT py_int a) s in
  (forall before ev after,
      trace r = (before ++ ev :: after)%list -> uses_latest before ev)
  /\ (forall fin, outcome r = inr fin ->
        latest_builder (trace r) = Some (context_builder fin)
        /\ latest_interpreter (trace r) = Some (the_interpreter fin)).
Proof.
  intros r. pose proof (triple_run _ _ _ (main_latest a) w s) as H.
  fold r in H. split.
  - intros before ev after. apply each_with_past_at.
    destruct (outcome r); tauto.
  - intros fin Hfin. rewrite Hfin in H. tauto.
Qed.

(** *** Where the training data comes from *)

(** [events] and [context] are what [.to(device)] returned for the events
    and the context of [d]. *)
Definition moved_from (d : sequences) (events context : tensor)
    (past : list event) : Prop :=
  exists device,
    In (Event (tensor_to (s_events d) device) (inr (VTensor events))) past
    /\ In (Event (tensor_to (s_context d) device) (inr (VTensor context))) past.

(** The tensors moved to the device are those of the sequences bound at
    that moment, and both fits get the moved context as [X] and the moved
    events, as one column, as [y]. *)
Definition trains_on_bound (past : list event) (ev : event) : Prop :=
  match ev_call ev with
  | tensor_to t _ =>
      exists d, bound_sequences past = Some d
                /\ (t = s_events d \/ t = s_context d)
  | ContextBuilder_fit _ X y _ _ _ _ _ | Interpreter_fit _ X y _ _ _ _ =>
      exists d events,
        bound_sequences past = Some d
        /\ moved_from d events X past
        /\ y = reshape_col events
  | _ => True
  end.

Definition data_flows (past : list event) : Prop :=
  each_with_past trains_on_bound [] past.

(** The data is in place: bound, and moved to the device. *)
Definition in_place (events context : tensor) (past : list event) : Prop :=
  exists d, bound_sequences past = Some d /\ moved_from d events context past.

(** An event after the move: it rebinds nothing, moves nothing, and fits
    on the moved tensors. *)
Definition feeds (events context : tensor) (ev : event) : Prop :=
  rebinds ev = false
  /\ match ev_call ev with
     | tensor_to _ _ => False
     | ContextBuilder_fit _ X y _ _ _ _ _ | Interpreter_fit _ X y _ _ _ _ =>
         X = context /\ y = reshape_col events
     | _ => True
     end.

(** An event before the move: no move, no fit. *)
Definition idle (ev : event) : Prop :=
  is_tensor_to (ev_call ev) = false /\ is_model_call (ev_call ev) = false.

Lemma in_place_later (events context : tensor) (past tr : list event) :
  in_place events context past ->
  Forall (fun ev => rebinds ev = false) tr ->
  in_place events context (past ++ tr).
Proof.
  intros (d & Hb & device & H1 & H2) Htr. exists d. split.
  - rewrite bound_sequences_app, fold_rebind_same; assumption.
  - exists device. split; apply in_or_app; left; assumption.
Qed.

Lemma feeds_flow (events context : tensor) (tr past : list event) :
  in_place events context past ->
  Forall (feeds events context) tr ->
  each_with_past trains_on_bound past tr.
Proof.
  intros Hp Htr. revert past Hp.
  induction Htr as [|ev tr [Hr Hev] _ IH]; simpl; intros past Hp; [exact I|].
  split.
  - unfold trains_on_bound. destruct Hp as (d & Hb & Hm).
    destruct (ev_call ev); trivial;
      [destruct Hev | destruct Hev as [-> ->]; eauto..].
  - apply IH. apply in_place_later; [exact Hp|]. repeat constructor. exact Hr.
Qed.

Lemma idle_flow (tr past : list event) :
  Forall idle tr -> each_with_past trains_on_bound past tr.
Proof.
  intros H. eapply each_with_past_every; [|exact H].
  intros before ev [H1 H2]. unfold trains_on_bound.
  destruct (ev_call ev); trivial; discriminate.
Qed.

Lemma sequences_section_idle (a : args) (pre : preprocessor) :
  all_runs (sequences_section a pre) (every_event idle).
Proof. calls ltac:(fail) ltac:(intros ?; split; reflexivity). Qed.

Lemma sequences_section_flow (a : args) (pre : preprocessor) :
  triple (fun past => past = []) (sequences_section a pre)
    (fun past v => data_flows past /\ bound_sequences past = v)
    (fun past _ => data_flows past).
Proof.
  intros past ->.
  eapply all_runs_mono;
    [|apply (all_runs_and _ _ _ (sequences_section_idle a pre)
               (sequences_section_binds a pre))].
  intros tr [e|v] [Hi Hb]; simpl; [apply idle_flow, Hi|].
  split; [apply idle_flow, Hi|exact Hb].
Qed.

Lemma quiet_step {R} (p : prog R) (v : option sequences) :
  all_runs p (every_event (fun ev => idle ev /\ rebinds ev = false)) ->
  triple (fun past => data_flows past /\ bound_sequences past = v) p
    (fun past _ => data_flows past /\ bound_sequences past = v)
    (fun past _ => data_flows past).
Proof.
  intros Hp past [Hf Hb]. eapply all_runs_mono; [|apply Hp].
  intros tr o Htr.
  assert (Hflow : data_flows (past ++ tr)).
  { apply each_with_past_app. split; [exact Hf|]. apply idle_flow.
    eapply Forall_impl; [exact Htr|]. simpl. tauto. }
  destruct o as [e|x]; [exact Hflow|]. split; [exact Hflow|].
  rewrite bound_sequences_app, fold_rebind_same; [exact Hb|].
  eapply Forall_impl; [exact Htr|]. simpl. tauto.
Qed.

Lemma cast_tensors_flow (device : string) (v : option sequences) :
  triple (fun past => data_flows past /\ bound_sequences past = v)
    (cast_tensors device v)
    (fun past cast => data_flows past /\ in_place (fst cast) (snd cast) past)
    (fun past _ => data_flows past).
Proof.
  intros past [Hf Hb]. unfold cast_tensors, name, do.
  destruct v as [d|]; simpl; [|rewrite app_nil_r; exact Hf].
  assert (H1 : forall ans,
    data_flows (past ++ [Event (tensor_to (s_events d) device) ans])).
  { intros ans. apply each_with_past_app. split; [exact Hf|]. simpl.
    split; [|exact I]. exists d. auto. }
  assert (H2 : forall t ans,
    data_flows (past ++ [Event (tensor_to (s_events d) device) (inr (VTensor t));
                         Event (tensor_to (s_context d) device) ans])).
  { intros t ans. apply each_with_past_app. split; [exact Hf|]. simpl.
    repeat split; exists d; (split; [|auto]);
      rewrite ?bound_sequences_app; simpl; exact Hb. }
  intros [e|events]; simpl; [apply H1|].
  intros [e|context]; simpl; [apply H2|].
  split; [apply H2|]. exists d. split.
  - rewrite bound_sequences_app. simpl. exact Hb.
  - exists device. split; apply in_or_app; right; simpl; auto.
Qed.

Lemma after_cast_feeds (a : args) (n : Z) (device : string)
    (events context : tensor) :
  all_runs
    (cb <- context_builder_section a n device events context ;;
     i <- interpreter_section a n device events context cb ;;
     manual_analysis a ;;
     automatic_analysis a ;;
     Ret (Final cb i))%prog
    (every_event (feeds events context)).
Proof.
  calls ltac:(idtac;
    lazymatch goal with
    | |- all_runs (fit_interpreter _ _ _ _ _) _ =>
        unfold fit_interpreter, initial_score, shape0, lift, do;
        destruct (args_mode a); try apply Forall_nil_2;
        destruct (t_shape _); simpl; try apply Forall_nil_2;
        intros [?|[]]; repeat constructor
    end)
    ltac:(intros [?|?]; repeat split; reflexivity).
Qed.

Lemma model_sections_flow (a : args) (v : option sequences) :
  triple (fun past => data_flows past /\ bound_sequences past = v)
    (model_sections py_int a v)
    (fun past _ => data_flows past) (fun past _ => data_flows past).
Proof.
  unfold model_sections.
  eapply triple_bind;
    [apply quiet_step;
     calls ltac:(fail) ltac:(intros [?|?]; repeat split; reflexivity)|].
  intros device.
  eapply triple_bind;
    [apply quiet_step;
     calls ltac:(fail) ltac:(intros [?|?]; repeat split; reflexivity)|].
  intros n.
  eapply triple_bind; [apply cast_tensors_flow|]. intros cast. cbv zeta.
  intros past [Hf Hp].
  eapply all_runs_mono; [|apply after_cast_feeds].
  intros tr o Htr.
  assert (H : data_flows (past ++ tr)).
  { apply each_with_past_app. split; [exact Hf|].
    apply (feeds_flow (fst cast) (snd cast)); assumption. }
  destruct o; exact H.
Qed.

Lemma main_flow (a : args) :
  triple (fun past => past = []) (main NO_EVENT py_int a)
    (fun past _ => data_flows past) (fun past _ => data_flows past).
Proof.
  unfold main.
  eapply triple_bind; [apply sequences_section_flow|]. intros v.
  destruct (args_mode a); [|apply model_sections_flow..].
  eapply triple_conseq;
    [| | |apply (quiet_step (sequence_mode NO_EVENT v) v);
          calls ltac:(fail) ltac:(intros [?|?]; repeat split; reflexivity)];
    simpl; tauto.
Qed.

(** The model is trained on the data of section A: wherever the trace has
    a call of [ContextBuilder.fit] or [Interpreter.fit], its [X] is what
    [.to(device)] returned for the context of the sequences bound by
    then, and its [y] is the one-column reshaping of what [.to(device)]
    returned for their events; and only the events and the context of the
    bound sequences are moved to the device. *)
Theorem fits_use_the_bound_sequences (a : args) (w : world) (s : wstate w)
    (before after : list event) (ev : event) :
  trace (exec w (main NO_EVENT py_int a) s) = (before ++ ev :: after)%list ->
  trains_on_bound before ev.
Proof.
  apply each_with_past_at.
  pose proof (triple_run _ _ _ (main_flow a) w s) as H.
  destruct (outcome (exec w (main NO_EVENT py_int a) s)); exact H.
Qed.

(** *** The exceptions the script raises itself *)

(** When every call returned, a run can still end with an exception: the
    [ValueError] of lines 85-87 when both [--csv] and [--txt] are given;
    a [NameError] when no file was preprocessed and either nothing was
    loaded or the sequences were to be saved first; the [SystemExit] of
    [exit()] in sequence mode; what [int(args.events)] raised; the
    [IndexError] of [events.shape[0]] in train mode. *)
Definition script_error (a : args) (e : exn) : Prop :=
  (e = ValueError "Please specify EITHER --csv OR --txt."
   /\ is_not_none (args_csv a) && is_not_none (args_txt a) = true)
  \/ ((exists x, e = NameError x)
      /\ truthy (args_csv a) = false /\ truthy (args_txt a) = false
      /\ (truthy (args_load_sequences a) = true ->
          truthy (args_save_sequences a) = true))
  \/ (e = SystemExit None /\ args_mode a = Sequence)
  \/ (py_int (args_events a) = inl e /\ args_mode a <> Sequence
      /\ String.eqb (args_events a) "auto" = false)
  \/ (e = IndexError /\ args_mode a = Train).

(** Of the runs in which every call returned, those that raise raise
    within [own]. *)
Definition blames {R} (own : exn -> Prop) (tr : list event) (o : exn + R)
    : Prop :=
  all_returned tr = true ->
  match o with
  | inl e => own e
  | inr _ => True
  end.

Lemma blames_bind {A R} (p : prog A) (f : A -> prog R) (own : exn -> Prop) :
  all_runs p (blames own) -> (forall x, all_runs (f x) (blames own)) ->
  all_runs (bind p f) (blames own).
Proof.
  intros Hp Hf. apply all_runs_bind. eapply all_runs_mono; [|apply Hp].
  intros tr [e|x] H; simpl; [exact H|].
  eapply all_runs_mono; [|apply Hf]. intros tr' o' H'. unfold blames in *.
  rewrite all_returned_app. intros Hall. apply andb_true_iff in Hall.
  apply H'. tauto.
Qed.

Lemma blames_do (c : call) (own : exn -> Prop) : all_runs (do c) (blames own).
Proof. intros [e|x]; unfold blames; simpl; [discriminate|trivial]. Qed.

Lemma all_runs_under {R} (p : prog R) (H : Prop)
    (P : list event -> exn + R -> Prop) :
  (H -> all_runs p P) -> all_runs p (fun tr o => H -> P tr o).
Proof.
  revert P. induction p as [r|e|c k IH]; simpl; intros P HP; auto.
Qed.

Ltac blame leaf :=
  lazymatch goal with
  | |- all_runs (bind _ _) _ =>
      apply blames_bind; [blame leaf | intros; blame leaf]
  | |- all_runs (do ?c) _ => apply (blames_do c)
  | |- all_runs (Ret _) _ => exact (fun _ => I)
  | |- all_runs (Raise _) _ => intros _; leaf
  | |- all_runs (if_given ?o _ _) _ =>
      unfold if_given; destruct o as [?|];
      [destruct (String.eqb _ "")|]; blame leaf
  | |- all_runs (name _ ?v) _ =>
      destruct v; [exact (fun _ => I) | intros _; leaf]
  | |- all_runs (lift ?r) _ =>
      destruct r eqn:?; [intros _; leaf | exact (fun _ => I)]
  | |- all_runs (if ?b then _ else _) _ => destruct b eqn:?; blame leaf
  | |- all_runs (match args_mode ?a with _ => _ end) _ =>
      destruct (args_mode a) eqn:?; blame leaf
  | |- all_runs (let _ := _ in _) _ => cbv zeta; blame leaf
  | |- all_runs ?p _ => let h := head_of p in unfold h; blame leaf
  end.

Lemma sequences_section_raises (a : args) (pre : preprocessor)
    (own : exn -> Prop) (unbound : Prop) :
  (is_not_none (args_csv a) && is_not_none (args_txt a) = true ->
   own (ValueError "Please specify EITHER --csv OR --txt.")) ->
  (truthy (args_csv a) = false -> truthy (args_txt a) = false ->
   truthy (args_save_sequences a) = true -> forall x, own (NameError x)) ->
  (truthy (args_csv a) = false -> truthy (args_txt a) = false ->
   truthy (args_load_sequences a) = false -> unbound) ->
  all_runs (sequences_section a pre) (fun (tr : list event) o =>
    all_returned tr = true ->
    match o with
    | inl e => own e
    | inr v => v = None -> unbound
    end).
Proof.
  unfold sequences_section, load_files, save_sequences, load_sequences,
    with_open, if_given, name, do, truthy, is_not_none.
  destruct (args_csv a) as [p|]; [destruct (String.eqb p "")|];
    (destruct (args_txt a) as [q|]; [destruct (String.eqb q "")|]);
    (destruct (args_save_sequences a) as [ps|];
       [destruct (String.eqb ps "")|]);
    (destruct (args_load_sequences a) as [pl|];
       [destruct (String.eqb pl "")|]);
    cbn; intros HV HN HU; run_all; try discriminate; auto.
Qed.

Lemma model_sections_raises (a : args) (v : option sequences)
    (own : exn -> Prop) :
  (v = None -> forall x, own (NameError x)) ->
  (forall e, String.eqb (args_events a) "auto" = false ->
             py_int (args_events a) = inl e -> own e) ->
  (args_mode a = Train -> own IndexError) ->
  all_runs (model_sections py_int a v) (blames own).
Proof.
  intros HN HI HX.
  blame ltac:(first
    [ solve [eauto]
    | match goal with
      | E : initial_score _ _ = inl _ |- _ =>
          unfold initial_score, shape0 in E; destruct (t_shape _);
          [injection E as <-; eauto | discriminate E]
      end ]).
Qed.

Lemma main_raises (a : args) :
  all_runs (main NO_EVENT py_int a) (blames (script_error a)).
Proof.
  unfold main. apply all_runs_bind.
  eapply all_runs_mono;
    [|apply (sequences_section_raises a _ (script_error a)
               (truthy (args_csv a) = false /\ truthy (args_txt a) = false
                /\ truthy (args_load_sequences a) = false))].
  - intros tr [e|v] H; simpl; [exact H|].
    apply (all_runs_mono _ (fun tr' o' =>
             all_returned tr = true -> blames (script_error a) tr' o')).
    { intros tr' o' H'. unfold blames in *. rewrite all_returned_app.
      intros Hall. apply andb_true_iff in Hall. apply H'; tauto. }
    apply all_runs_under. intros Hall. specialize (H Hall).
    assert (HN : v = None -> forall x, script_error a (NameError x)).
    { intros Hv x. destruct (H Hv) as (Hc & Ht & Hl). right. left.
      repeat split; eauto. rewrite Hl. discriminate. }
    destruct (args_mode a) eqn:Hm.
    1: { blame ltac:(first [ solve [apply HN; reflexivity]
                           | right; right; left; split;
                             [reflexivity|exact Hm] ]). }
    all: apply model_sections_raises; [exact HN| |].
    all: try (intros e He Hint; do 3 right; left; repeat split; auto;
              congruence).
    all: intros Hx; do 4 right; auto.
  - intros H. left. auto.
  - intros Hc Ht Hs x. right. left. repeat split; eauto.
  - auto.
Qed.

(** The script adds five exceptions of its own to those of the calls it
    makes: a run in which every call returned and that ends with an
    exception ends with the [ValueError] for [--csv] with [--txt], with a
    [NameError] (only when nothing was preprocessed, and nothing loaded
    unless the sequences were to be saved first), with [SystemExit] (only
    in sequence mode), with what [int(args.events)] raised (only outside
    sequence mode, for a value other than ["auto"]), or with [IndexError]
    (only in train mode).  The calls answer with values of the kind the
    script unpacks (four sequences, tensors, objects), and [reshape],
    [torch.zeros] and the subtraction are the total operations on
    [tensor]. *)
Theorem exceptions_of_the_script (a : args) (w : world) (s : wstate w)
    (e : exn) :
  let r := exec w (main NO_EVENT py_int a) s in
  all_returned (trace r) = true -> outcome r = inl e -> script_error a e.
Proof.
  intros r Hall Ho.
  pose proof (all_runs_exec _ _ (main_raises a) w s Hall) as H.
  fold r in H. rewrite Ho in H. exact H.
Qed.

(** *** From the command line to the run *)

Section CommandLine.

Variable py_float : string -> exn + float.

Ltac stored H :=
  unfold store, with_int, with_float, parser_error in H;
  repeat match type of H with
  | context [match ?o with Csv => _ | _ => _ end] => destruct o
  | context [py_int ?v] => destruct (py_int v)
  | context [py_float ?v] => destruct (py_float v)
  end;
  try discriminate; try congruence;
  injection H as <-; reflexivity.

(** The mode of the namespace is the first positional argument. *)
Lemma store_all_mode (cl : list argument) (m : option mode) (surplus : bool)
    (a a' : args) :
  store_all py_int py_float m surplus a cl = inr a' ->
  m = Some (args_mode a')
  \/ (m = None
      /\ exists s, In (Positional s) cl
                   /\ mode_of_string s = Some (args_mode a')).
Proof.
  revert m surplus a. induction cl as [|x cl IH]; simpl; intros m surplus a H.
  - destruct m as [m|]; [|discriminate]. destruct surplus; [discriminate|].
    injection H as <-. left. reflexivity.
  - assert (Hlater : forall m0 surplus0 a0,
              store_all py_int py_float m0 surplus0 a0 cl = inr a' ->
              m0 = m ->
              m = Some (args_mode a')
              \/ (m = None
                  /\ exists s, In (Positional s) (x :: cl)
                               /\ mode_of_string s = Some (args_mode a'))).
    { intros m0 surplus0 a0 H0 <-.
      destruct (IH _ _ _ H0) as [Hm|[Hm (s & Hin & Hs)]]; [left; exact Hm|].
      right. split; [exact Hm|]. exists s. split; [right; exact Hin|exact Hs]. }
    destruct x as [s|o v| | | |]; try discriminate.
    + destruct m as [m|]; [exact (Hlater _ _ _ H eq_refl)|].
      destruct (mode_of_string s) as [m'|] eqn:Hs; [|discriminate].
      right. split; [reflexivity|].
      destruct (IH _ _ _ H) as [Hm|[Hm _]]; [|discriminate].
      exists s. split; [left; reflexivity|congruence].
    + destruct (store py_int py_float a o v) as [e|a1]; [discriminate|].
      exact (Hlater _ _ _ H eq_refl).
    + exact (Hlater _ _ _ H eq_refl).
Qed.

Lemma parse_unset (cl : list argument) (a : args) :
  parse_args py_int py_float cl = inr a ->
  (~ supplied Csv cl -> args_csv a = None)
  /\ (~ supplied Txt cl -> args_txt a = None)
  /\ (~ supplied SaveSequences cl -> args_save_sequences a = None)
  /\ (~ supplied LoadSequences cl -> args_load_sequences a = None)
  /\ (~ supplied SaveBuilder cl -> args_save_builder a = None)
  /\ (~ supplied LoadBuilder cl -> args_load_builder a = None)
  /\ (~ supplied SaveInterpreter cl -> args_save_interpreter a = None)
  /\ (~ supplied LoadInterpreter cl -> args_load_interpreter a = None)
  /\ (~ supplied Events cl -> args_events a = "auto")
  /\ (~ supplied Device cl -> args_device a = "auto").
Proof.
  intros H.
  repeat split; intros Hn;
    (eapply parse_default; [| | |exact H|exact Hn];
     [|reflexivity|reflexivity]);
    clear; intros a o' v a' H Hf; stored H.
Qed.

(** A namespace that the parser returns has a positional argument, one
    of the four choices, as its mode; every path option that argparse did
    not find on the command line is [None] in it, and [events] and
    [device], when not found, are ["auto"]. *)
Theorem options_not_given_are_absent (cl : list argument) (a : args) :
  parse_args py_int py_float cl = inr a ->
  (exists s, In (Positional s) cl /\ mode_of_string s = Some (args_mode a))
  /\ (~ supplied Csv cl -> args_csv a = None)
  /\ (~ supplied Txt cl -> args_txt a = None)
  /\ (~ supplied SaveSequences cl -> args_save_sequences a = None)
  /\ (~ supplied LoadSequences cl -> args_load_sequences a = None)
  /\ (~ supplied SaveBuilder cl -> args_save_builder a = None)
  /\ (~ supplied LoadBuilder cl -> args_load_builder a = None)
  /\ (~ supplied SaveInterpreter cl -> args_save_interpreter a = None)
  /\ (~ supplied LoadInterpreter cl -> args_load_interpreter a = None)
  /\ (~ supplied Events cl -> args_events a = "auto")
  /\ (~ supplied Device cl -> args_device a = "auto").
Proof.
  intros H. split; [|exact (parse_unset cl a H)].
  unfold parse_args in H.
  destruct (existsb is_ambiguous cl); [discriminate|].
  destruct (store_all_mode _ _ _ _ _ H) as [Hm|[_ Hs]];
    [discriminate|exact Hs].
Qed.

(** A command line on which argparse finds none of [--csv], [--txt] and
    [--load-sequences], under any spelling, cannot succeed, whatever the
    mode and the other options: the run touches no data and no model and
    ends with an exception, which is a [NameError] or what
    [int(args.events)] raised when every call returned. *)
Theorem command_line_needs_an_input (cl : list argument) (a : args)
    (w : world) (s : wstate w) :
  parse_args py_int py_float cl = inr a ->
  ~ supplied Csv cl -> ~ supplied Txt cl ->
  ~ supplied LoadSequences cl ->
  let r := exec w (main NO_EVENT py_int a) s in
  Forall (fun ev => is_setup_call (ev_call ev) = true) (trace r)
  /\ exists e, outcome r = inl e
       /\ (all_returned (trace r) = true ->
           (exists x, e = NameError x) \/ py_int (args_events a) = inl e).
Proof.
  intros H Hc Ht Hl r.
  destruct (parse_unset cl a H) as (Hcsv & Htxt & _ & Hload & _).
  specialize (Hcsv Hc). specialize (Htxt Ht). specialize (Hload Hl).
  assert (Hrun : all_runs (main NO_EVENT py_int a) _)
    by (apply main_without_input; [rewrite Hcsv|rewrite Htxt|rewrite Hload];
        reflexivity).
  pose proof (all_runs_exec _ _ Hrun w s) as (Htr & e & Ho & He).
  fold r in Htr, Ho, He. split; [exact Htr|]. exists e. split; [exact Ho|].
  intros Hall.
  pose proof (all_runs_exec _ _ (main_raises a) w s Hall) as Hs.
  fold r in Hs. rewrite Ho in Hs.
  destruct (He Hall) as [->|[Hn|Hi]]; [|left; exact Hn|right; exact Hi].
  destruct Hs as [[_ Hb]|[[[x Hx] _]|[[Hx _]|[[Hi _]|[Hx _]]]]];
    try discriminate Hx; [|right; exact Hi].
  rewrite Hcsv in Hb. discriminate Hb.
Qed.

End CommandLine.

End Further.

(** ** The further properties on the example runs *)

Section FurtherInstances.

Import SpecWorld Demo.

(** [deepcase.py manual] alone: CUDA is asked about, then [len(mapping)]
    finds no mapping. *)
Lemma no_input_no_model_witness :
  Forall (fun ev => is_setup_call (ev_call ev) = true)
    (trace (run_of (default_args Manual) fresh))
  /\ exists e, outcome (run_of (default_args Manual) fresh) = inl e
       /\ (all_returned (trace (run_of (default_args Manual) fresh)) = true ->
           own_error decimal_int (default_args Manual) e).
Proof.
  exact (no_input_no_model no_event decimal_int (default_args Manual) world
           fresh eq_refl eq_refl eq_refl).
Defined.

(** [deepcase.py train --save-sequences sequences.new]: the file is
    opened and closed, and [events] is not defined. *)
Lemma save_without_data_witness :
  let r := run_of (set_save_sequences (Some "sequences.new")
                     (default_args Train)) fresh in
  (exists e,
      trace r = [Event (open_file "sequences.new" "wb") (inl e)]
      /\ outcome r = inl e)
  \/ (exists f ans,
        trace r = [Event (open_file "sequences.new" "wb") (inr (VFile f));
                   Event (close_file f) ans]
        /\ outcome r =
             inl (match ans with inl e => e | inr _ => NameError "events" end)).
Proof.
  apply (save_without_data no_event decimal_int
           (set_save_sequences (Some "sequences.new") (default_args Train))
           world fresh "sequences.new"); try reflexivity.
  discriminate.
Defined.

(** [deepcase.py train --csv events.csv --length 2 --events abc] *)
Lemma bad_events_stops_early_witness :
  Forall before_the_model
    (trace (run_of (set_events "abc" (on_events Train)) fresh))
  /\ exists e',
       outcome (run_of (set_events "abc" (on_events Train)) fresh) = inl e'
       /\ (all_returned
             (trace (run_of (set_events "abc" (on_events Train)) fresh)) = true ->
           bound_sequences
             (trace (run_of (set_events "abc" (on_events Train)) fresh)) <> None ->
           e' = ValueError "invalid literal for int() with base 10").
Proof.
  apply (bad_events_stops_early no_event decimal_int
           (set_events "abc" (on_events Train))
           (ValueError "invalid literal for int() with base 10") world fresh).
  - discriminate.
  - reflexivity.
  - reflexivity.
Defined.

(** The [ContextBuilder.fit] of the training run on the three events. *)
Lemma fits_use_the_bound_sequences_witness :
  trains_on_bound
    (firstn 6 (trace (run_of (on_events Train) fresh)))
    (Event (ContextBuilder_fit 0%nat context (reshape_col events) 10 128
              0.01%float 0.5%float true) (inr VNone)).
Proof.
  apply (fits_use_the_bound_sequences no_event decimal_int (on_events Train)
           world fresh _ (skipn 7 (trace (run_of (on_events Train) fresh)))).
  vm_compute. reflexivity.
Defined.

(** [deepcase.py manual] alone ends with the [NameError] for [mapping]. *)
Lemma exceptions_of_the_script_witness :
  script_error decimal_int (default_args Manual) (NameError "mapping").
Proof.
  apply (exceptions_of_the_script no_event decimal_int (default_args Manual)
           world fresh (NameError "mapping")); reflexivity.
Defined.

(** [deepcase.py manual --events 5]: no path is given and the device is
    left to be chosen. *)
Lemma options_not_given_are_absent_witness :
  mode_of_string "manual" = Some Manual
  /\ args_csv (set_events "5" (default_args Manual)) = None
  /\ args_load_builder (set_events "5" (default_args Manual)) = None
  /\ args_device (set_events "5" (default_args Manual)) = "auto".
Proof.
  destruct (options_not_given_are_absent decimal_int half_float
              [Positional "manual"; Given Events "5"]
              (set_events "5" (default_args Manual)) eq_refl)
    as ((s & [Hs|[Hs|[]]] & Hmode) & Hcsv & _ & _ & _ & _ & Hbuilder & _ & _
          & _ & Hdevice); [|discriminate Hs].
  injection Hs as <-.
  assert (Hn : forall o, o <> Events ->
            ~ supplied o [Positional "manual"; Given Events "5"]).
  { intros o Ho (v & [H|[H|[]]]); congruence. }
  exact (conj Hmode
          (conj (Hcsv (Hn Csv ltac:(discriminate)))
          (conj (Hbuilder (Hn LoadBuilder ltac:(discriminate)))
                (Hdevice (Hn Device ltac:(discriminate)))))).
Defined.

(** [deepcase.py manual], from its command line. *)
Lemma command_line_needs_an_input_witness :
  exists e, outcome (run_of (default_args Manual) fresh) = inl e
    /\ (all_returned (trace (run_of (default_args Manual) fresh)) = true ->
        (exists x, e = NameError x)
        \/ decimal_int (args_events (default_args Manual)) = inl e).
Proof.
  apply (command_line_needs_an_input no_event decimal_int half_float
           [Positional "manual"] (default_args Manual) world fresh eq_refl);
    intros (v & [H|[]]); discriminate H.
Defined.

End FurtherInstances.
